(** * HNSGo helper scripts: checkpoint generator and log cleaner

    A shallow embedding of [scripts/generate_checkpoint.py] and of the
    line filter of [scripts/clean_logs.py], with the properties of the
    array locator, the hex-escape decoder, the size and height checks and
    the log-line filter.

    Conventions of the embedding.
    - A Python [str] is a [list ascii] (type [text]); every character the
      scripts compare against is ASCII, other characters are just
      characters that match nothing.
    - A Python [bytes] is a [list Byte.byte]; indexing it yields the
      integer [int_of_byte b : Z].
    - Python integers are [Z]; indices and lengths that are never negative
      are [nat].
    - [str.find] returns [-1] for "absent": here [None].
    - Exceptions are values of [exn]; a computation that may raise returns
      a [result].
    - [print], [mkdir] and the binary write are events of a trace; each
      of them may raise, as the environment decides ([print] on a stream
      that cannot encode or take the line). An event stands for an
      operation that completed: a write that raises leaves no event,
      whatever it did to the file before it raised. *)

From Stdlib Require Import ZArith Lia Ascii String.
From Stdlib.Strings Require Import Byte.
From stdpp Require Import base list strings.

Local Open Scope char_scope.

(** ** Python values *)

Abbreviation text := (list ascii).

(** A string literal of the source. *)
Definition lit (s : string) : text := list_ascii_of_string s.

Definition ord (c : ascii) : Z := Z.of_N (N_of_ascii c).

(** The double-quote character. *)
Definition dquote : ascii := ascii_of_nat 34.

Definition int_of_byte (b : byte) : Z := Z.of_N (Byte.to_N b).

Inductive exn : Type :=
| ValueError (msg : string)
| IndexError (msg : string)
| OSError (msg : string)
| SystemExit (code : Z).

#[global] Instance exn_eq_dec : EqDecision exn.
Proof. solve_decision. Defined.

(** [SystemExit] derives from [BaseException] only: [except Exception]
    does not catch it. *)
Definition is_Exception (e : exn) : bool :=
  match e with
  | SystemExit _ => false
  | _ => true
  end.

Inductive result (A : Type) : Type :=
| Ok (a : A)
| Raise (e : exn).
Arguments Ok {A} a.
Arguments Raise {A} e.

#[global] Instance result_ret : MRet result := fun _ a => Ok a.
#[global] Instance result_bind : MBind result := fun _ _ k r =>
  match r with
  | Ok a => k a
  | Raise e => Raise e
  end.

(** A list comprehension whose body may raise: left to right, the first
    exception wins. *)
Fixpoint comprehension {A B} (f : A -> result B) (xs : list A)
  : result (list B) :=
  match xs with
  | [] => Ok []
  | x :: xs' => y ← f x; ys ← comprehension f xs'; Ok (y :: ys)
  end.

(** ** [generate_checkpoint.py]: [extract_hex_strings] *)

(** The character class [[0-9a-fA-F]] of [hex_pattern]. *)
Definition in_hex_class (c : ascii) : bool :=
  let n := ord c in
  ((48 <=? n) && (n <=? 57) || (97 <=? n) && (n <=? 102)
   || (65 <=? n) && (n <=? 70))%Z.

(** [re.findall(hex_pattern, content)] with
    [hex_pattern = r'\\x([0-9a-fA-F]{2})']: the regex is tried at each
    position from the left; a match yields its group (the two digits) and
    the scan resumes after the four matched characters, otherwise it
    resumes one character further. *)
Fixpoint findall_hex (content : text) : list text :=
  match content with
  | [] => []
  | c0 :: rest =>
      match rest with
      | c1 :: h1 :: h2 :: rest' =>
          if Ascii.eqb c0 "\" && Ascii.eqb c1 "x"
             && in_hex_class h1 && in_hex_class h2
          then [h1; h2] :: findall_hex rest'
          else findall_hex rest
      | _ => findall_hex rest
      end
  end.

(** The value of one digit for [int(s, 16)]: ['0'..'9'] are 0..9,
    letters are 10 and up in either case; it must be below the base. *)
Definition digit_value (base : Z) (c : ascii) : option Z :=
  let n := ord c in
  let v :=
    (if (48 <=? n) && (n <=? 57) then Some (n - 48)
     else if (97 <=? n) && (n <=? 122) then Some (n - 97 + 10)
     else if (65 <=? n) && (n <=? 90) then Some (n - 65 + 10)
     else None)%Z in
  match v with
  | Some d => if (d <? base)%Z then Some d else None
  | None => None
  end.

Fixpoint int_digits (base : Z) (acc : Z) (s : text) : option Z :=
  match s with
  | [] => Some acc
  | c :: s' =>
      match digit_value base c with
      | Some d => int_digits base (acc * base + d)%Z s'
      | None => None
      end
  end.

(** [int(hex_str, 16)] on a string of digits; anything else raises
    [ValueError] here (Python accepts a few more spellings, such as a sign
    or a [0x] prefix, none of which [findall_hex] can produce). *)
Definition int_ (s : text) (base : Z) : result Z :=
  match s with
  | [] => Raise (ValueError "invalid literal for int()")
  | _ =>
      match int_digits base 0 s with
      | Some n => Ok n
      | None => Raise (ValueError "invalid literal for int()")
      end
  end.

(** [bytes(iterable_of_ints)]: every integer must be in [range(256)]. *)
Fixpoint bytes (ints : list Z) : result (list byte) :=
  match ints with
  | [] => Ok []
  | n :: ints' =>
      match (if (n <? 0)%Z then None else Byte.of_N (Z.to_N n)) with
      | Some b => bs ← bytes ints'; Ok (b :: bs)
      | None => Raise (ValueError "bytes must be in range(0, 256)")
      end
  end.

Definition extract_hex_strings (content : text) : result (list byte) :=
  let matches := findall_hex content in
  ints ← comprehension (fun hex_str => int_ hex_str 16) matches;
  bytes ints.

(** *** The decoder's specification, from its description

    A hex-escape token sits at index [i] of [s] when the four characters
    from [i] are a backslash, the letter x and two hexadecimal digits; its
    value is the two digits read in base 16. *)

Definition hexadecimal_digits_lower : text := lit "0123456789abcdef".
Definition hexadecimal_digits_upper : text := lit "0123456789ABCDEF".

Fixpoint index_of (c : ascii) (l : text) : option nat :=
  match l with
  | [] => None
  | d :: l' => if Ascii.eqb c d then Some 0 else S <$> index_of c l'
  end.

Definition hexadecimal_value (c : ascii) : option Z :=
  match index_of c hexadecimal_digits_lower with
  | Some k => Some (Z.of_nat k)
  | None => Z.of_nat <$> index_of c hexadecimal_digits_upper
  end.

Definition token_at (s : text) (i : nat) : option Z :=
  match s !! i, s !! (i + 1), s !! (i + 2), s !! (i + 3) with
  | Some b, Some x, Some h1, Some h2 =>
      if Ascii.eqb b "\" && Ascii.eqb x "x" then
        match hexadecimal_value h1, hexadecimal_value h2 with
        | Some d1, Some d2 => Some (16 * d1 + d2)%Z
        | _, _ => None
        end
      else None
  | _, _, _, _ => None
  end.

(** The values of all the tokens of [s], by increasing position. *)
Definition tokens (s : text) : list Z :=
  omap (token_at s) (seq 0 (length s)).

(** ** [generate_checkpoint.py]: [extract_checkpoint_array] *)

(** [s.startswith(sub)]. *)
Fixpoint startswith (s sub : text) {struct sub} : bool :=
  match sub, s with
  | [], _ => true
  | c :: sub', d :: s' => Ascii.eqb c d && startswith s' sub'
  | _ :: _, [] => false
  end.

(** The search of [str.find]: [s] is the text from index [i] on; the
    lowest index at which [sub] starts, if any. *)
Fixpoint find_in (sub s : text) (i : nat) {struct s} : option nat :=
  if startswith s sub then Some i
  else
    match s with
    | [] => None
    | _ :: s' => find_in sub s' (S i)
    end.

(** [s.find(sub, start)] for a [start] that is not negative; [None] is
    Python's [-1]. *)
Definition find (s sub : text) (start : nat) : option nat :=
  if decide (start <= length s) then find_in sub (drop start s) start
  else None.

(** [sub in s]. *)
Definition contains (s sub : text) : bool :=
  match find s sub 0 with
  | Some _ => true
  | None => false
  end.

(** [s[a:b]] for indices that are not negative. *)
Definition slice {A} (s : list A) (a b : nat) : list A :=
  take (b - a) (drop a s).

(** The loop [for i in range(brace_start, len(content))]: [rest] is
    [content[i:]], and the result is [(brace_count, brace_end)] when the
    loop is left, by [break] or at the end of the range. *)
Fixpoint brace_loop (rest : text) (i : nat) (brace_count : Z)
    (brace_end : nat) : Z * nat :=
  match rest with
  | [] => (brace_count, brace_end)
  | c :: rest' =>
      if Ascii.eqb c "{" then
        brace_loop rest' (S i) (brace_count + 1)%Z brace_end
      else if Ascii.eqb c "}" then
        let brace_count := (brace_count - 1)%Z in
        if (brace_count =? 0)%Z then (brace_count, i)
        else brace_loop rest' (S i) brace_count brace_end
      else brace_loop rest' (S i) brace_count brace_end
  end.

Definition msg_no_array : string :=
  "Could not find HSK_CHECKPOINT_MAIN array in file".
Definition msg_no_opening_brace : string :=
  "Could not find opening brace for HSK_CHECKPOINT_MAIN array".
Definition msg_no_closing_brace : string :=
  "Could not find matching closing brace for HSK_CHECKPOINT_MAIN array".

(** The body of [extract_checkpoint_array] after the file is read, with
    the searched string as a parameter. *)
Definition extract_array (needle : text) (content : text) : result text :=
  match find content needle 0 with
  | None => Raise (ValueError msg_no_array)
  | Some array_start =>
      match find content (lit "{") array_start with
      | None => Raise (ValueError msg_no_opening_brace)
      | Some brace_start =>
          let '(brace_count, brace_end) :=
            brace_loop (drop brace_start content) brace_start 0 brace_start in
          if negb (brace_count =? 0)%Z then
            Raise (ValueError msg_no_closing_brace)
          else Ok (slice content (brace_start + 1) brace_end)
      end
  end.

(** The string the source searches for: the array's name and the bracket
    that opens its size. *)
Definition array_decl : text := lit "HSK_CHECKPOINT_MAIN[".

Definition extract_checkpoint_array_from (content : text) : result text :=
  extract_array array_decl content.

(** ** Files, output and the [main] of [generate_checkpoint.py] *)

(** A [pathlib.Path], as its components. *)
Definition path := list string.

Definition joinpath (p : path) (name : string) : path := p ++ [name].
Definition parent (p : path) : path := removelast p.

(** The file system the script runs on: the collaborators that test
    for the input, read the header and write the artifact, each of which
    may raise ([Path.exists] on a name too long or a directory that may
    not be searched). *)
Record filesystem : Type := {
  exists_ : path -> result bool;
  read_text : path -> result text;
  mkdir_parents : path -> result unit;
  write_bytes : path -> list byte -> result unit
}.

Definition extract_checkpoint_array (fs : filesystem) (file_path : path)
  : result text :=
  content ← read_text fs file_path;
  extract_checkpoint_array_from content.

Inductive stream : Type := stdout | stderr.

#[global] Instance stream_eq_dec : EqDecision stream.
Proof. solve_decision. Defined.

(** One constructor per [print] of [main]; the arguments are the values
    the f-string interpolates (for the two height lines also the
    [136000] that the text spells out). *)
Inductive message : Type :=
| MsgInputNotFound (input_file : path)
    (* "Error: Input file not found: {input_file}" *)
| MsgReading (input_file : path)
    (* "Reading checkpoint data from: {input_file}" *)
| MsgExtracted (n : Z)
    (* "Extracted {len(checkpoint_data)} bytes of checkpoint data" *)
| MsgExpectedSize (expected : Z)
    (* "Expected size: {expected_size} bytes" *)
| MsgSizeMismatch (expected got : Z)
    (* "Warning: Size mismatch! Expected {expected_size} bytes, got {len}" *)
| MsgExtractionIssue
    (* "This may indicate an issue with the checkpoint extraction." *)
| MsgSizeMatches
    (* "Size matches expected format" *)
| MsgHeight (height expected : Z)
    (* "Checkpoint height: {height} (expected: 136000)" *)
| MsgHeightMismatch (expected got : Z)
    (* "Warning: Height mismatch! Expected 136000, got {height}" *)
| MsgHeightPassed
    (* "Height verification passed" *)
| MsgWrote (output_file : path)
    (* "Successfully wrote checkpoint to: {output_file}" *)
| MsgFileSize (n : Z)
    (* "File size: {len(checkpoint_data)} bytes" *)
| MsgError (e : exn)
    (* "Error: {e}" *).

#[global] Instance message_eq_dec : EqDecision message.
Proof. solve_decision. Defined.

Inductive event : Type :=
| Print (f : stream) (m : message)
| Mkdir (dir : path)
| WriteFile (file : path) (data : list byte).

(** A run: what it did, then its value or the exception that ended it. *)
Definition io (A : Type) : Type := list event * result A.

#[global] Instance io_ret : MRet io := fun _ a => ([], Ok a).
#[global] Instance io_bind : MBind io := fun _ _ k m =>
  match m with
  | (t, Ok a) => let '(t', r) := k a in (t ++ t', r)
  | (t, Raise e) => (t, Raise e)
  end.

Definition lift {A} (r : result A) : io A := ([], r).
Definition print (m : message) (f : stream) : io unit := ([Print f m], Ok tt).

(** The output streams of a run: the outcome of writing a line to a
    stream. A stream raises on a line it cannot encode (the two lines
    with the check mark U+2713, on a stream that is not Unicode) or
    cannot take. *)
Definition console : Type := stream -> message -> result unit.

(** [print(line, file=f)] on such streams. *)
Definition print_on (out : console) (m : message) (f : stream) : io unit :=
  match out f m with
  | Ok _ => ([Print f m], Ok tt)
  | Raise e => ([], Raise e)
  end.

(** The lines that hold the check mark. *)
Definition is_check_mark (m : message) : bool :=
  match m with
  | MsgSizeMatches | MsgHeightPassed => true
  | _ => false
  end.
Definition sys_exit {A} (code : Z) : io A := ([], Raise (SystemExit code)).

(** [try: body except Exception as e: handler]. *)
Definition try_except {A} (body : io A) (handler : exn -> io A) : io A :=
  match body with
  | (t, Raise e) =>
      if is_Exception e then let '(t', r) := handler e in (t ++ t', r)
      else (t, Raise e)
  | (t, Ok a) => (t, Ok a)
  end.

Definition mkdir (fs : filesystem) (dir : path) : io unit :=
  match mkdir_parents fs dir with
  | Ok _ => ([Mkdir dir], Ok tt)
  | Raise e => ([], Raise e)
  end.

(** [with open(file, 'wb') as f: f.write(data)]. *)
Definition open_write (fs : filesystem) (file : path) (data : list byte)
  : io unit :=
  match write_bytes fs file data with
  | Ok _ => ([WriteFile file data], Ok tt)
  | Raise e => ([], Raise e)
  end.

(** [len(b)] and [b[i]] on [bytes]. *)
Definition len {A} (l : list A) : Z := Z.of_nat (length l).

Definition getitem (b : list byte) (i : nat) : result Z :=
  match b !! i with
  | Some x => Ok (int_of_byte x)
  | None => Raise (IndexError "index out of range")
  end.

Definition expected_size : Z := 4 + 32 + (150 * 236).

(** Lines 107-128 of [main]: the size and height checks, with the [print]
    they use. *)
Definition main_validate_with (print : message -> stream -> io unit)
    (checkpoint_data : list byte) : io unit :=
  let expected_size := expected_size in
  print (MsgExtracted (len checkpoint_data)) stdout;;
  print (MsgExpectedSize expected_size) stdout;;
  (if negb (len checkpoint_data =? expected_size)%Z then
     print (MsgSizeMismatch expected_size (len checkpoint_data)) stderr;;
     print MsgExtractionIssue stderr
   else
     print MsgSizeMatches stdout);;
  if (len checkpoint_data >=? 4)%Z then
    let height_bytes := slice checkpoint_data 0 4 in
    b0 ← lift (getitem height_bytes 0);
    b1 ← lift (getitem height_bytes 1);
    b2 ← lift (getitem height_bytes 2);
    b3 ← lift (getitem height_bytes 3);
    let height :=
      Z.lor (Z.lor (Z.lor (Z.shiftl b0 24) (Z.shiftl b1 16)) (Z.shiftl b2 8))
            b3 in
    print (MsgHeight height 136000) stdout;;
    if negb (height =? 136000)%Z then
      print (MsgHeightMismatch 136000 height) stderr
    else
      print MsgHeightPassed stdout
  else mret tt.

(** The checks on streams that take every line. *)
Definition main_validate (checkpoint_data : list byte) : io unit :=
  main_validate_with print checkpoint_data.

(** Lines 130-138 of [main]: the artifact is written. *)
Definition main_write (fs : filesystem) (out : console) (output_file : path)
    (checkpoint_data : list byte) : io unit :=
  mkdir fs (parent output_file);;
  open_write fs output_file checkpoint_data;;
  print_on out (MsgWrote output_file) stdout;;
  print_on out (MsgFileSize (len checkpoint_data)) stdout.

(** The paths [main] takes from [sys.argv], or their defaults. *)
Definition input_file_of (project_root : path) (argv : list path) : path :=
  match argv with
  | _ :: a1 :: _ => a1
  | _ => joinpath (joinpath project_root "android") "checkpoints.h"
  end.

Definition output_file_of (project_root : path) (argv : list path) : path :=
  match argv with
  | _ :: _ :: a2 :: _ => a2
  | _ =>
      joinpath (joinpath (joinpath (joinpath (joinpath (joinpath
        project_root "android") "app") "src") "main") "assets")
        "checkpoint.dat"
  end.

(** [main]; [project_root] is [Path(__file__).parent.parent] and [argv]
    is [sys.argv]. The test for the input file and the two prints before
    the [try] are outside it: what they raise leaves [main]. *)
Definition main (fs : filesystem) (out : console) (project_root : path)
    (argv : list path) : io unit :=
  let input_file := input_file_of project_root argv in
  let output_file := output_file_of project_root argv in
  input_exists ← lift (exists_ fs input_file);
  (if negb input_exists then
     print_on out (MsgInputNotFound input_file) stderr;;
     sys_exit 1
   else mret tt);;
  print_on out (MsgReading input_file) stdout;;
  try_except
    (array_content ← lift (extract_checkpoint_array fs input_file);
     checkpoint_data ← lift (extract_hex_strings array_content);
     main_validate_with (print_on out) checkpoint_data;;
     main_write fs out output_file checkpoint_data)
    (fun e =>
       print_on out (MsgError e) stderr;;
       sys_exit 1).

(** What a run printed on a stream, and what it wrote. *)
Definition printed (f : stream) (t : list event) : list message :=
  omap (fun ev => match ev with
                  | Print g m => if decide (f = g) then Some m else None
                  | _ => None
                  end) t.

Definition written (t : list event) : list (path * list byte) :=
  omap (fun ev => match ev with
                  | WriteFile file data => Some (file, data)
                  | _ => None
                  end) t.

(** *** The validation report, read off the output

    The script keeps no report: what the description calls [sizeOk],
    [height] and [heightOk] is what the run prints. *)

Definition sizeOk (t : list event) : bool :=
  bool_decide (MsgSizeMatches ∈ printed stdout t).

Definition heightOk (t : list event) : bool :=
  bool_decide (MsgHeightPassed ∈ printed stdout t).

(** The heights the run reported, in order. *)
Definition reported_heights (t : list event) : list Z :=
  omap (fun m => match m with
                 | MsgHeight height _ => Some height
                 | _ => None
                 end) (printed stdout t).

(** What a message states of the sizes and of the heights. *)
Definition actual_size (m : message) : option Z :=
  match m with
  | MsgExtracted n | MsgSizeMismatch _ n | MsgFileSize n => Some n
  | _ => None
  end.

Definition expected_size_of (m : message) : option Z :=
  match m with
  | MsgExpectedSize n | MsgSizeMismatch n _ => Some n
  | _ => None
  end.

Definition actual_height (m : message) : option Z :=
  match m with
  | MsgHeight h _ | MsgHeightMismatch _ h => Some h
  | _ => None
  end.

Definition expected_height (m : message) : option Z :=
  match m with
  | MsgHeight _ e | MsgHeightMismatch e _ => Some e
  | _ => None
  end.

(** The values of one kind the run stated, on either stream. *)
Definition stated (kind : message -> option Z) (t : list event) : list Z :=
  omap kind (printed stdout t ++ printed stderr t).

(** The unsigned big-endian integer of a byte sequence. *)
Definition big_endian (bs : list byte) : Z :=
  foldl (fun acc b => acc * 256 + int_of_byte b)%Z 0%Z bs.

(** The closed form of the output of [main_validate]. *)
Definition size_lines (data : list byte) : list event :=
  [Print stdout (MsgExtracted (len data));
   Print stdout (MsgExpectedSize 35436)]
  ++ (if (len data =? 35436)%Z then [Print stdout MsgSizeMatches]
      else [Print stderr (MsgSizeMismatch 35436 (len data));
            Print stderr MsgExtractionIssue]).

Definition height_lines (data : list byte) : list event :=
  match data with
  | b0 :: b1 :: b2 :: b3 :: _ =>
      let height := big_endian [b0; b1; b2; b3] in
      [Print stdout (MsgHeight height 136000);
       if (height =? 136000)%Z then Print stdout MsgHeightPassed
       else Print stderr (MsgHeightMismatch 136000 height)]
  | _ => []
  end.

(** ** [clean_logs.py]: the line filter of [clean_file] *)

Definition EXCLUDED_DOMAINS : list text :=
  [lit "android"; lit "java"; lit "kotlin"; lit "com.acktarius";
   lit "package"; lit "import"; lit "org.xbill"; lit "org.bouncycastle";
   lit "fi.iki.elonen"].


(** [s.rstrip('.')]. *)
Fixpoint lstrip_char (c : ascii) (s : text) : text :=
  match s with
  | d :: s' => if Ascii.eqb d c then lstrip_char c s' else s
  | [] => []
  end.

Definition rstrip_char (c : ascii) (s : text) : text :=
  reverse (lstrip_char c (reverse s)).

(** [s.split(sep)] for a separator of one character. *)
Fixpoint split_char (sep : ascii) (s : text) : list text :=
  match s with
  | [] => [[]]
  | c :: s' =>
      if Ascii.eqb c sep then [] :: split_char sep s'
      else
        match split_char sep s' with
        | part :: parts => (c :: part) :: parts
        | [] => [[c]]
        end
  end.

Section CleanLogs.

(** The regular-expression searches of the script and two [str]
    methods are collaborators of the filter: its properties below hold
    whatever they answer. *)
Variable re_search_IP : text -> bool.      (* re.search(IP_PATTERN, s) *)
Variable re_search_IPV6 : text -> bool.    (* re.search(IPV6_PATTERN, s) *)
Variable re_search_hash : text -> bool.    (* re.search(hash_pattern, s) *)
Variable re_finditer_DOMAIN : text -> list text.
  (* [m.group(0) for m in re.finditer(DOMAIN_PATTERN, s, re.IGNORECASE)] *)
Variable re_match_LOG : text -> bool.      (* re.match(LOG_PATTERN, s) *)
Variable lower : text -> text.             (* s.lower() *)
Variable strip : text -> text.             (* s.strip() *)

(** The [for match in domain_matches] loop, [true] for its
    [return True]. *)
Fixpoint domain_loop (domain_matches : list text) : bool :=
  match domain_matches with
  | [] => false
  | group0 :: domain_matches' =>
      let domain := rstrip_char "." (lower group0) in
      if negb (existsb (fun ex => contains domain ex) EXCLUDED_DOMAINS) then
        let parts := split_char "." domain in
        if (len parts >=? 2)%Z then true
        else domain_loop domain_matches'
      else domain_loop domain_matches'
  end.

Definition contains_sensitive_data (line : text) : bool :=
  if re_search_IP line || re_search_IPV6 line then
    if contains line (lit "9.9.9.9") || contains line (lit "1.1.1.1")
       || contains line (lit "127.0.0.1")
    then
      if contains line (lit "//") || contains line (lit "const")
         || contains line (lit "val")
      then false
      else true
    else true
  else if domain_loop (re_finditer_DOMAIN line) then true
  else if re_search_hash line then true
  else if contains line (lit "Log.")
          && (contains line (lit "TLD") || contains line (lit "tld"))
  then true
  else if contains line (lit "Log.")
          && (contains (lower line) (lit "domain")
              || contains (lower line) (lit "name"))
          && (contains line (lit "'") || contains line [dquote])
  then true
  else false.

Definition is_log_statement (line : text) : bool :=
  re_match_LOG (strip line) || contains line (lit "android.util.Log.d").

(** The loop of [clean_file] over the lines read, with its two
    variables. *)
Fixpoint clean_loop (lines : list text) (cleaned_lines : list text)
    (removed_count : Z) : list text * Z :=
  match lines with
  | [] => (cleaned_lines, removed_count)
  | line :: lines' =>
      if (contains line (lit "Log.d")
          || contains line (lit "android.util.Log.d"))
         && is_log_statement line
      then clean_loop lines' cleaned_lines (removed_count + 1)%Z
      else if contains line (lit "Log.") && contains_sensitive_data line
      then clean_loop lines' cleaned_lines (removed_count + 1)%Z
      else clean_loop lines' (cleaned_lines ++ [line]) removed_count
  end.

(** The condition on which the loop drops a line, its two tests in
    one. *)
Definition removes (line : text) : bool :=
  (contains line (lit "Log.d") || contains line (lit "android.util.Log.d"))
  && is_log_statement line
  || contains line (lit "Log.") && contains_sensitive_data line.

(** What [clean_file] does: the lines it prints, and the rewrite of the
    file, [WriteLines], when [open] and [writelines] completed. *)
Inductive clean_event : Type :=
| ErrorReading (file_path : path) (e : exn)
| WriteLines (file_path : path) (lines : list text)
| Removed (file_path : path) (removed_count : Z)
| ErrorWriting (file_path : path) (e : exn).

(** The outcome of printing a line of [clean_file]: [print] raises on a
    line the stream cannot encode (the line of a success starts with the
    check mark U+2713) or cannot take. *)
Variable print_line : clean_event -> result unit.

(** [print(line); return value]. *)
Definition say (line : clean_event) (value : bool)
  : list clean_event * result bool :=
  match print_line line with
  | Ok _ => ([line], Ok value)
  | Raise e => ([], Raise e)
  end.

(** [clean_file]: [readlines] is the outcome of reading the file,
    [writelines] the one of rewriting it. Each [try] catches the
    exceptions proper; the second one also holds the print of the
    success, after the write. *)
Definition clean_file (file_path : path) (readlines : result (list text))
    (writelines : list text -> result unit)
  : list clean_event * result bool :=
  match readlines with
  | Raise e =>
      if is_Exception e then say (ErrorReading file_path e) false
      else ([], Raise e)
  | Ok lines =>
      let '(cleaned_lines, removed_count) := clean_loop lines [] 0 in
      if (removed_count >? 0)%Z then
        match writelines cleaned_lines with
        | Ok _ =>
            match print_line (Removed file_path removed_count) with
            | Ok _ =>
                ([WriteLines file_path cleaned_lines;
                  Removed file_path removed_count], Ok true)
            | Raise e =>
                if is_Exception e then
                  let '(events, value) :=
                    say (ErrorWriting file_path e) false in
                  (WriteLines file_path cleaned_lines :: events, value)
                else ([WriteLines file_path cleaned_lines], Raise e)
            end
        | Raise e =>
            if is_Exception e then say (ErrorWriting file_path e) false
            else ([], Raise e)
        end
      else ([], Ok false)
  end.

End CleanLogs.

(** ** [clean_logs.py]: [main] *)

(** What [main] prints, and what [clean_file] does in between. *)
Inductive cleaner_event : Type :=
| MsgNoDirectory (target_dir : path)
    (* "Error: Directory {target_dir} does not exist" *)
| MsgCleaning (target_dir : path)
    (* "Cleaning log statements in: {target_dir}" *)
| MsgRule
    (* "=" * 60, before the files *)
| MsgRuleEnd
    (* "=" * 60, after the files *)
| MsgNoKotlinFiles
    (* "No Kotlin files found" *)
| MsgCleaned (cleaned_count : Z)
    (* "Cleaned {cleaned_count} files" *)
| FileEvent (e : clean_event).

(** The source tree the cleaner runs on: whether a directory exists
    ([Path.exists]) and the Kotlin files below it
    ([list(target_dir.rglob("*.kt"))]), both of which may raise, the
    outcome of reading and of rewriting each file, and the outcome of
    printing a line. *)
Record source_tree : Type := {
  dir_exists : path -> result bool;
  rglob_kt : path -> result (list path);
  open_readlines : path -> result (list text);
  open_writelines : path -> list text -> result unit;
  echo : cleaner_event -> result unit
}.

(** [print(line)], then the rest of the run. *)
Definition echo_then {A} (tree : source_tree) (line : cleaner_event)
    (rest : list cleaner_event * result A) : list cleaner_event * result A :=
  match echo tree line with
  | Ok _ => (line :: rest.1, rest.2)
  | Raise e => ([], Raise e)
  end.

(** The directory [main] cleans: [sys.argv[1]] or the default. *)
Definition cleaner_target (project_root : path) (argv : list path) : path :=
  match argv with
  | _ :: a1 :: _ => a1
  | _ =>
      joinpath (joinpath (joinpath (joinpath (joinpath (joinpath (joinpath
        (joinpath project_root "android") "app") "src") "main") "java")
        "com") "acktarius") "hnsgo"
  end.

Section CleanLogsMain.

Variable re_search_IP : text -> bool.
Variable re_search_IPV6 : text -> bool.
Variable re_search_hash : text -> bool.
Variable re_finditer_DOMAIN : text -> list text.
Variable re_match_LOG : text -> bool.
Variable lower : text -> text.
Variable strip : text -> text.

(** The loop [for kt_file in kotlin_files] with its counter; an
    exception that leaves [clean_file] ends it. *)
Fixpoint clean_files_loop (tree : source_tree) (kotlin_files : list path)
    (cleaned_count : Z) : list clean_event * result Z :=
  match kotlin_files with
  | [] => ([], Ok cleaned_count)
  | kt_file :: kotlin_files' =>
      let '(events, outcome) :=
        clean_file re_search_IP re_search_IPV6 re_search_hash
          re_finditer_DOMAIN re_match_LOG lower strip
          (fun line => echo tree (FileEvent line)) kt_file
          (open_readlines tree kt_file) (open_writelines tree kt_file) in
      match outcome with
      | Ok cleaned =>
          let '(events', outcome') :=
            clean_files_loop tree kotlin_files'
              (if cleaned then cleaned_count + 1 else cleaned_count)%Z in
          (events ++ events', outcome')
      | Raise e => (events, Raise e)
      end
  end.

(** [main] of [clean_logs.py]; [project_root] is
    [Path(__file__).parent.parent]. [sys.exit(code)] is
    [Raise (SystemExit code)]; nothing in [main] catches an exception. *)
Definition clean_logs_main (tree : source_tree) (project_root : path)
    (argv : list path) : list cleaner_event * result unit :=
  let target_dir := cleaner_target project_root argv in
  match dir_exists tree target_dir with
  | Raise e => ([], Raise e)
  | Ok found =>
      if negb found then
        echo_then tree (MsgNoDirectory target_dir)
          ([], Raise (SystemExit 1))
      else
        echo_then tree (MsgCleaning target_dir)
          (echo_then tree MsgRule
             match rglob_kt tree target_dir with
             | Raise e => ([], Raise e)
             | Ok [] =>
                 echo_then tree MsgNoKotlinFiles ([], Raise (SystemExit 0))
             | Ok kotlin_files =>
                 let '(events, outcome) :=
                   clean_files_loop tree kotlin_files 0 in
                 match outcome with
                 | Ok cleaned_count =>
                     let '(events', outcome') :=
                       echo_then tree MsgRuleEnd
                         (echo_then tree (MsgCleaned cleaned_count)
                            ([], Ok tt)) in
                     (map FileEvent events ++ events', outcome')
                 | Raise e => (map FileEvent events, Raise e)
                 end
             end)
  end.

End CleanLogsMain.

(** The files a run rewrote, in order, those it reported as cleaned,
    and the counts it printed. *)
Definition rewritten (events : list clean_event) : list path :=
  omap (fun e => match e with
                 | WriteLines file_path _ => Some file_path
                 | _ => None
                 end) events.

Definition reported (events : list clean_event) : list path :=
  omap (fun e => match e with
                 | Removed file_path _ => Some file_path
                 | _ => None
                 end) events.

Definition file_events (events : list cleaner_event) : list clean_event :=
  omap (fun e => match e with
                 | FileEvent e' => Some e'
                 | _ => None
                 end) events.

Definition printed_counts (events : list cleaner_event) : list Z :=
  omap (fun e => match e with
                 | MsgCleaned n => Some n
                 | _ => None
                 end) events.

(** The collaborators and the streams raise exceptions proper ([OSError],
    [UnicodeEncodeError] and the like), never [SystemExit]. *)
Definition raises_exceptions (fs : filesystem) (out : console) : Prop :=
  (forall p e, read_text fs p = Raise e -> is_Exception e = true) /\
  (forall p e, mkdir_parents fs p = Raise e -> is_Exception e = true) /\
  (forall p data e, write_bytes fs p data = Raise e -> is_Exception e = true)
  /\
  (forall f m e, out f m = Raise e -> is_Exception e = true).

(** The lines of [main] of [generate_checkpoint.py] that report a fatal
    error. *)
Definition is_error_line (m : message) : bool :=
  match m with
  | MsgInputNotFound _ | MsgError _ => true
  | _ => false
  end.

(** A stretch of a run that writes no file and that only an exception
    proper can end early. *)
Definition quiet {A} (m : io A) : Prop :=
  written m.1 = [] /\ forall e, m.2 = Raise e -> is_Exception e = true.

(** ** The locator's specification, from its description

    The description of the locator, stated on positions of the blob and
    independently of the loop: where a string occurs, where it occurs
    first, the nesting depth of a segment, and the literal these
    determine. *)

(** [sub] occurs in [s] at index [i]. *)
Definition occurs_at (sub s : text) (i : nat) : Prop :=
  exists pre post, s = pre ++ sub ++ post /\ length pre = i.

(** [p] is the first index from [start] on at which [sub] occurs. *)
Definition first_occurrence (sub s : text) (start p : nat) : Prop :=
  start <= p /\ occurs_at sub s p /\
  forall j, start <= j < p -> ~ occurs_at sub s j.

Definition count_char (c : ascii) (s : text) : nat :=
  length (filter (fun d => d = c) s).

(** Opening braces minus closing braces. *)
Definition depth (segment : text) : Z :=
  (Z.of_nat (count_char "{" segment) - Z.of_nat (count_char "}" segment))%Z.

Definition not_brace (c : ascii) : Prop := c <> "{" /\ c <> "}".

(** What one character adds to the depth. *)
Definition brace_step (c : ascii) : Z :=
  if Ascii.eqb c "{" then 1 else if Ascii.eqb c "}" then (-1) else 0.

(** The depth counted from the brace at [q] is back to 0 at [e] for the
    first time. *)
Definition closes_at (s : text) (q e : nat) : Prop :=
  q <= e < length s /\
  depth (slice s q (S e)) = 0%Z /\
  forall k, q <= k < e -> depth (slice s q (S k)) <> 0%Z.

Definition never_closes (s : text) (q : nat) : Prop :=
  forall k, q <= k < length s -> depth (slice s q (S k)) <> 0%Z.

(** [literal] is what lies strictly between the first brace at or after
    the first occurrence of [name] and the brace that closes it. *)
Definition located (name blob literal : text) : Prop :=
  exists p q e,
    first_occurrence name blob 0 p /\
    first_occurrence (lit "{") blob p q /\
    closes_at blob q e /\
    literal = slice blob (q + 1) e.

(** The three ways the description has the locator fail or succeed. *)
Definition name_occurs (name blob : text) : Prop :=
  exists i, occurs_at name blob i.

Definition no_brace_follows (name blob : text) : Prop :=
  exists p, first_occurrence name blob 0 p /\
            forall j, p <= j -> ~ occurs_at (lit "{") blob j.

Definition unbalanced (name blob : text) : Prop :=
  exists p q, first_occurrence name blob 0 p /\
              first_occurrence (lit "{") blob p q /\
              never_closes blob q.

(** The errors of the description are the [ValueError]s of the source,
    told apart by their message. *)
Definition NotFoundError : exn := ValueError msg_no_array.

Definition MalformedLiteralError (e : exn) : Prop :=
  e = ValueError msg_no_opening_brace \/ e = ValueError msg_no_closing_brace.

(** The array's name alone, as the description has it. *)
Definition array_name : text := lit "HSK_CHECKPOINT_MAIN".

(** ** The encoder of the round trip

    The repository has no encoder; this is the hex-escape literal form of
    the description: a declaration of the array whose braces enclose one
    string of [\xNN] tokens, one per byte, in order. *)

Definition hex_char (d : Z) : ascii :=
  nth (Z.to_nat d) hexadecimal_digits_lower "0".

(** The two digits of a byte. *)
Definition hex_digits (b : byte) : text :=
  [hex_char (int_of_byte b / 16); hex_char (int_of_byte b mod 16)].

Definition hex_escape (b : byte) : text :=
  "\" :: "x" :: hex_digits b.

Definition encode_literal (data : list byte) : text :=
  dquote :: concat (map hex_escape data) ++ [dquote].

Definition encode_checkpoint (data : list byte) : text :=
  lit "static const uint8_t HSK_CHECKPOINT_MAIN[] = {"
  ++ encode_literal data ++ lit "};".

(** ** Sample headers *)

(** The declaration with a nested brace pair. *)
Definition header_nested : text :=
  lit "static const uint8_t HSK_CHECKPOINT_MAIN[4] = { {'\x00\x02'}, '\x13\x40' };".

(** A comment names the array, with braces, before the declaration. *)
Definition header_with_comment : text :=
  lit "/* HSK_CHECKPOINT_MAIN: {height, chainwork} */ static const uint8_t HSK_CHECKPOINT_MAIN[4] = {'\x00\x02\x13\x40'};".

(** A space between the name and the bracket. *)
Definition header_spaced : text :=
  lit "static const uint8_t HSK_CHECKPOINT_MAIN [4] = {'\x00\x02\x13\x40'};".

(** The declaration is cut before its opening brace. *)
Definition header_no_brace : text :=
  lit "extern const uint8_t HSK_CHECKPOINT_MAIN[4];".

(** The initializer is never closed. *)
Definition header_unclosed : text :=
  lit "static const uint8_t HSK_CHECKPOINT_MAIN[4] = { {'\x00\x02'}, '\x13\x40' ;".

(** A file system with no file at all. *)
Definition fs_empty : filesystem :=
  {| exists_ := fun _ => Ok false;
     read_text := fun _ => Raise (OSError "No such file or directory");
     mkdir_parents := fun _ => Ok tt;
     write_bytes := fun _ _ => Ok tt |}.

(** A file system in which every path holds [content] and every write
    succeeds. *)
Definition fs_holding (content : text) : filesystem :=
  {| exists_ := fun _ => Ok true;
     read_text := fun _ => Ok content;
     mkdir_parents := fun _ => Ok tt;
     write_bytes := fun _ _ => Ok tt |}.

(** A file system on which the test for a file fails (a name too
    long). *)
Definition fs_name_too_long : filesystem :=
  {| exists_ := fun _ => Raise (OSError "File name too long");
     read_text := fun _ => Raise (OSError "File name too long");
     mkdir_parents := fun _ => Ok tt;
     write_bytes := fun _ _ => Ok tt |}.

(** Streams that take every line, and streams that cannot encode the
    check mark. *)
Definition unicode_console : console := fun _ _ => Ok tt.

Definition ascii_console : console := fun _ m =>
  if is_check_mark m then
    Raise (ValueError "'ascii' codec can't encode character '\u2713'")
  else Ok tt.

(** A header whose four bytes are not the expected height. *)
Definition header_height_1 : text :=
  lit "static const uint8_t HSK_CHECKPOINT_MAIN[4] = {'\x00\x00\x00\x01'};".

Definition sample_root : path := ["repo"%string].
Definition sample_script : path :=
  ["repo"%string; "scripts"%string; "generate_checkpoint.py"%string].
Definition sample_input : path := ["in"%string; "checkpoints.h"%string].
Definition sample_output : path := ["out"%string; "checkpoint.dat"%string].

(** A tree of two Kotlin files, the first with a debug log. *)
Definition sample_tree : source_tree :=
  {| dir_exists := fun _ => Ok true;
     rglob_kt := fun _ => Ok [["Main.kt"%string]; ["Util.kt"%string]];
     open_readlines := fun p =>
       if decide (p = ["Main.kt"%string]) then
         Ok [lit "fun f() {"; lit "  android.util.Log.d(TAG, msg)"; lit "}"]
       else Ok [lit "val y = 2"];
     open_writelines := fun _ _ => Ok tt;
     echo := fun _ => Ok tt |}.

(** The same tree on a stream that cannot encode the check mark of the
    success line. *)
Definition sample_tree_ascii : source_tree :=
  {| dir_exists := dir_exists sample_tree;
     rglob_kt := rglob_kt sample_tree;
     open_readlines := open_readlines sample_tree;
     open_writelines := open_writelines sample_tree;
     echo := fun line =>
       match line with
       | FileEvent (Removed _ _) =>
           Raise (ValueError "'ascii' codec can't encode character '\u2713'")
       | _ => Ok tt
       end |}.

(** Regular-expression searches that find nothing. *)
Definition finds_nothing : text -> bool := fun _ => false.
Definition matches_nothing : text -> list text := fun _ => [].
Definition unchanged : text -> text := fun s => s.

(** * Properties *)

(** ** The decoder *)

Lemma hexadecimal_value_class (c : ascii) :
  hexadecimal_value c = if in_hex_class c then digit_value 16 c else None.
Proof.
  destruct c as [[] [] [] [] [] [] [] []]; vm_compute; reflexivity.
Qed.

Lemma hexadecimal_value_range (c : ascii) (d : Z) :
  hexadecimal_value c = Some d -> (0 <= d < 16)%Z.
Proof.
  destruct c as [[] [] [] [] [] [] [] []]; vm_compute;
    intros H; inversion H; split; congruence.
Qed.

Lemma hex_class_not_backslash (c : ascii) :
  in_hex_class c = true -> Ascii.eqb c "\" = false.
Proof.
  destruct c as [[] [] [] [] [] [] [] []]; vm_compute; congruence.
Qed.

Lemma token_at_S (c : ascii) (s : text) (i : nat) :
  token_at (c :: s) (S i) = token_at s i.
Proof. reflexivity. Qed.

Lemma token_at_0_other (c : ascii) (s : text) :
  Ascii.eqb c "\" = false -> token_at (c :: s) 0 = None.
Proof.
  intros Hc. unfold token_at. simpl. rewrite Hc. simpl.
  repeat case_match; reflexivity.
Qed.

Lemma omap_seq_S {A} (f : nat -> option A) (j n : nat) :
  omap f (seq (S j) n) = omap (fun i => f (S i)) (seq j n).
Proof.
  revert j. induction n as [|n IH]; intros j; simpl; [reflexivity|].
  rewrite IH. reflexivity.
Qed.

Lemma tokens_cons (c : ascii) (s : text) :
  tokens (c :: s) = option_list (token_at (c :: s) 0) ++ tokens s.
Proof.
  unfold tokens.
  change (seq 0 (length (c :: s))) with (0 :: seq 1 (length s)).
  cbn [omap list_omap].
  assert (omap (token_at (c :: s)) (seq 1 (length s)) =
          omap (token_at s) (seq 0 (length s))) as ->.
  { apply (omap_seq_S (token_at (c :: s)) 0). }
  destruct (token_at (c :: s) 0); reflexivity.
Qed.

Lemma tokens_cons_other (c : ascii) (s : text) :
  Ascii.eqb c "\" = false -> tokens (c :: s) = tokens s.
Proof.
  intros Hc. rewrite tokens_cons, token_at_0_other by exact Hc. reflexivity.
Qed.

Lemma int_two_digits (h1 h2 : ascii) (d1 d2 : Z) :
  digit_value 16 h1 = Some d1 -> digit_value 16 h2 = Some d2 ->
  int_ [h1; h2] 16 = Ok (16 * d1 + d2)%Z.
Proof.
  intros H1 H2. unfold int_. simpl. rewrite H1, H2.
  f_equal. lia.
Qed.

(** A matched escape is a token, and the three characters after its
    backslash start none. *)
Lemma tokens_match (h1 h2 : ascii) (rest : text) (d1 d2 : Z) :
  in_hex_class h1 = true -> in_hex_class h2 = true ->
  digit_value 16 h1 = Some d1 -> digit_value 16 h2 = Some d2 ->
  tokens ("\" :: "x" :: h1 :: h2 :: rest) = (16 * d1 + d2)%Z :: tokens rest.
Proof.
  intros C1 C2 V1 V2.
  rewrite tokens_cons.
  rewrite (tokens_cons_other "x") by reflexivity.
  rewrite (tokens_cons_other h1) by (apply hex_class_not_backslash; exact C1).
  rewrite (tokens_cons_other h2) by (apply hex_class_not_backslash; exact C2).
  unfold token_at. simpl.
  rewrite !hexadecimal_value_class, C1, C2, V1, V2. reflexivity.
Qed.

Lemma token_at_0_mismatch (c0 c1 h1 h2 : ascii) (rest : text) :
  Ascii.eqb c0 "\" && Ascii.eqb c1 "x" && in_hex_class h1 && in_hex_class h2
    = false ->
  token_at (c0 :: c1 :: h1 :: h2 :: rest) 0 = None.
Proof.
  intros H. unfold token_at. simpl.
  rewrite !hexadecimal_value_class.
  destruct (Ascii.eqb c0 "\"), (Ascii.eqb c1 "x"), (in_hex_class h1),
    (in_hex_class h2); simpl in *; try discriminate; try reflexivity;
    repeat case_match; reflexivity.
Qed.

Lemma token_at_0_short (s : text) :
  length s < 4 -> token_at s 0 = None.
Proof.
  intros H. unfold token_at.
  destruct s as [|a [|b [|c [|d s]]]]; simpl in *; try reflexivity; lia.
Qed.

Lemma digit_value_of_class (h : ascii) :
  in_hex_class h = true -> exists d, digit_value 16 h = Some d.
Proof.
  destruct h as [[] [] [] [] [] [] [] []]; vm_compute; try discriminate;
    intros _; eexists; reflexivity.
Qed.

(** The scan of [findall_hex] finds the tokens, all of them and in
    order. *)
Lemma findall_hex_tokens (content : text) :
  comprehension (fun hex_str => int_ hex_str 16) (findall_hex content)
  = Ok (tokens content).
Proof.
  remember (length content) as n eqn:Hn. revert content Hn.
  induction n as [n IH] using lt_wf_ind. intros content Hn.
  destruct content as [|c0 rest]; [reflexivity|].
  simpl in Hn.
  assert (Hrest : comprehension (fun hex_str => int_ hex_str 16)
                    (findall_hex rest) = Ok (tokens rest)).
  { apply (IH (length rest)); [lia | reflexivity]. }
  destruct rest as [|c1 [|h1 [|h2 rest']]];
    try (rewrite tokens_cons, token_at_0_short by (simpl; lia);
         exact Hrest).
  cbn [findall_hex].
  destruct (Ascii.eqb c0 "\" && Ascii.eqb c1 "x"
            && in_hex_class h1 && in_hex_class h2) eqn:Hm.
  - apply andb_prop in Hm as [Hm C2]. apply andb_prop in Hm as [Hm C1].
    apply andb_prop in Hm as [E0 E1].
    apply Ascii.eqb_eq in E0, E1. subst c0 c1.
    destruct (digit_value_of_class h1 C1) as [d1 V1].
    destruct (digit_value_of_class h2 C2) as [d2 V2].
    rewrite (tokens_match h1 h2 rest' d1 d2) by assumption.
    cbn [comprehension]. rewrite (int_two_digits h1 h2 d1 d2) by assumption.
    cbn [mbind result_bind].
    rewrite (IH (length rest')) by (simpl in *; lia || reflexivity).
    reflexivity.
  - rewrite tokens_cons, token_at_0_mismatch by exact Hm. exact Hrest.
Qed.

Lemma token_at_range (s : text) (i : nat) (v : Z) :
  token_at s i = Some v -> (0 <= v < 256)%Z.
Proof.
  unfold token_at. intros H.
  repeat case_match; try discriminate.
  inversion H; subst.
  repeat match goal with
         | E : hexadecimal_value _ = Some _ |- _ =>
             apply hexadecimal_value_range in E
         end.
  lia.
Qed.

Lemma tokens_range (s : text) :
  Forall (fun v => 0 <= v < 256)%Z (tokens s).
Proof.
  apply Forall_forall. intros v Hv.
  apply list_elem_of_omap in Hv as (i & _ & Hi).
  exact (token_at_range s i v Hi).
Qed.

Lemma int_of_byte_range (b : byte) : (0 <= int_of_byte b < 256)%Z.
Proof.
  unfold int_of_byte. pose proof (Byte.to_N_bounded b). lia.
Qed.

(** [bytes] accepts the integers of [range(256)] and keeps them. *)
Lemma bytes_in_range (ints : list Z) :
  Forall (fun v => 0 <= v < 256)%Z ints ->
  exists bs, bytes ints = Ok bs /\ map int_of_byte bs = ints.
Proof.
  induction 1 as [|n ints Hn _ (bs & Hbs & Hmap)].
  - exists []. split; reflexivity.
  - simpl. destruct (Z.ltb_spec n 0) as [|_]; [lia|].
    destruct (Byte.of_N (Z.to_N n)) as [b|] eqn:Hb.
    + exists (b :: bs). rewrite Hbs. split; [reflexivity|].
      simpl. rewrite Hmap. f_equal.
      apply Byte.to_of_N in Hb. unfold int_of_byte. lia.
    + apply Byte.of_N_None_iff in Hb. lia.
Qed.

Lemma tokens_none (s : text) :
  (forall i, token_at s i = None) -> tokens s = [].
Proof.
  intros H. unfold tokens.
  induction (seq 0 (length s)) as [|i l IH]; [reflexivity|].
  simpl. rewrite H. exact IH.
Qed.

(** C1. For every input text, [extract_hex_strings] returns one byte per
    hex-escape token of the text (a backslash, the letter x and two
    hexadecimal digits), whose value is the two digits read in base 16,
    by increasing position of the tokens; it never raises, and on a text
    with no token it returns the empty byte sequence. *)
Theorem decode_returns_tokens_in_order (content : text) :
  (exists data,
      extract_hex_strings content = Ok data /\
      map int_of_byte data = tokens content /\
      length data = length (tokens content)) /\
  ((forall i, token_at content i = None) ->
   extract_hex_strings content = Ok []).
Proof.
  assert (Hmain : exists data, extract_hex_strings content = Ok data /\
                               map int_of_byte data = tokens content).
  { unfold extract_hex_strings. cbn zeta.
    rewrite findall_hex_tokens. cbn [mbind result_bind].
    apply bytes_in_range, tokens_range. }
  destruct Hmain as (data & Hdata & Hmap). split.
  - exists data. split; [exact Hdata|]. split; [exact Hmap|].
    rewrite <- Hmap. rewrite length_map. reflexivity.
  - intros Hnone. rewrite Hdata. f_equal.
    apply tokens_none in Hnone. rewrite Hnone in Hmap.
    destruct data; [reflexivity | discriminate].
Qed.

Lemma decode_returns_tokens_in_order_witness :
  (forall i, token_at (lit "{ 0x00, 'x41' }") i = None) /\
  extract_hex_strings (lit "{ 0x00, 'x41' }") = Ok [].
Proof.
  assert (H : forall i, token_at (lit "{ 0x00, 'x41' }") i = None).
  { intros i.
    do 16 (destruct i as [|i]; [reflexivity|]).
    reflexivity. }
  split; [exact H|].
  exact (proj2 (decode_returns_tokens_in_order (lit "{ 0x00, 'x41' }")) H).
Defined.

Example decode_height_literal :
  extract_hex_strings (lit "  'x\x00\x02\x13\x4G\x40' /* height */") =
  Ok [x00; x02; x13; x40]%byte.
Proof. reflexivity. Qed.

Example tokens_height_literal :
  tokens (lit "  'x\x00\x02\x13\x4G\x40' /* height */") = [0; 2; 19; 64]%Z.
Proof. reflexivity. Qed.

(** ** The locator *)

Lemma startswith_spec (s sub : text) :
  startswith s sub = true <-> exists post, s = sub ++ post.
Proof.
  revert s. induction sub as [|c sub IH]; intros s.
  - simpl. destruct s; split; eauto.
  - destruct s as [|d s]; simpl.
    + split; [intros H; discriminate H | intros [post H]; discriminate H].
    + rewrite andb_true_iff, Ascii.eqb_eq, IH. split.
      * intros [-> [post ->]]. eauto.
      * intros [post H]. inversion H; subst. eauto.
Qed.

Lemma occurs_at_drop (sub s : text) (i : nat) :
  occurs_at sub s i <-> i <= length s /\ startswith (drop i s) sub = true.
Proof.
  unfold occurs_at. rewrite startswith_spec. split.
  - intros (pre & post & -> & <-). split.
    + rewrite length_app. lia.
    + exists post. rewrite drop_app_length. reflexivity.
  - intros (Hi & post & Hpost). exists (take i s), post. split.
    + rewrite <- Hpost. rewrite take_drop. reflexivity.
    + rewrite length_take. lia.
Qed.

Lemma find_in_Some (sub s : text) (i p : nat) :
  find_in sub s i = Some p ->
  exists k, p = i + k /\ k <= length s /\
            startswith (drop k s) sub = true /\
            forall j, j < k -> startswith (drop j s) sub = false.
Proof.
  revert i. induction s as [|c s IH]; intros i; cbn [find_in].
  - destruct (startswith [] sub) eqn:E; [|discriminate].
    intros [= <-]. exists 0. cbn [drop length].
    repeat split; try lia; try exact E.
  - destruct (startswith (c :: s) sub) eqn:E.
    + intros [= <-]. exists 0. cbn [drop length].
      repeat split; try lia; try exact E.
    + intros H. apply IH in H as (k & -> & Hk & Hat & Hbefore).
      exists (S k). cbn [drop length].
      repeat split; try lia; try exact Hat.
      intros [|j] Hj; [exact E|]. cbn [drop]. apply Hbefore. lia.
Qed.

Lemma find_in_None (sub s : text) (i : nat) :
  find_in sub s i = None ->
  forall k, k <= length s -> startswith (drop k s) sub = false.
Proof.
  revert i. induction s as [|c s IH]; intros i; cbn [find_in].
  - destruct (startswith [] sub) eqn:E; [discriminate|].
    intros _ k Hk. rewrite drop_nil. exact E.
  - destruct (startswith (c :: s) sub) eqn:E; [discriminate|].
    intros H [|k] Hk; [exact E|]. cbn [drop length] in *.
    apply (IH _ H). lia.
Qed.

(** [find] returns the first occurrence from [start] on. *)
Lemma find_Some (s sub : text) (start p : nat) :
  find s sub start = Some p <-> first_occurrence sub s start p.
Proof.
  unfold find, first_occurrence. split.
  - destruct (decide (start <= length s)) as [Hs|]; [|discriminate].
    intros H. apply find_in_Some in H as (k & -> & Hk & Hat & Hbefore).
    rewrite length_drop in Hk. rewrite drop_drop in Hat.
    split; [lia|]. split.
    + apply occurs_at_drop. split; [lia | exact Hat].
    + intros j Hj Hocc. apply occurs_at_drop in Hocc as [_ Hocc].
      specialize (Hbefore (j - start)). rewrite drop_drop in Hbefore.
      replace (start + (j - start)) with j in Hbefore by lia.
      rewrite Hbefore in Hocc by lia. discriminate.
  - intros (Hstart & Hocc & Hfirst).
    apply occurs_at_drop in Hocc as [Hp Hocc].
    destruct (decide (start <= length s)) as [Hs|]; [|lia].
    destruct (find_in sub (drop start s) start) as [p'|] eqn:E.
    + apply find_in_Some in E as (k & -> & Hk & Hat & Hbefore).
      rewrite length_drop in Hk. rewrite drop_drop in Hat.
      f_equal.
      destruct (Nat.lt_trichotomy (start + k) p) as [Hlt|[Heq|Hgt]];
        [|exact Heq|].
      * exfalso. apply (Hfirst (start + k)); [lia|].
        apply occurs_at_drop. split; [lia | exact Hat].
      * specialize (Hbefore (p - start)). rewrite drop_drop in Hbefore.
        replace (start + (p - start)) with p in Hbefore by lia.
        rewrite Hbefore in Hocc by lia. discriminate.
    + exfalso. pose proof (find_in_None _ _ _ E (p - start)) as Hn.
      rewrite length_drop, drop_drop in Hn.
      replace (start + (p - start)) with p in Hn by lia.
      rewrite Hn in Hocc by lia. discriminate.
Qed.

Lemma find_None (s sub : text) (start : nat) :
  find s sub start = None <->
  forall p, start <= p -> ~ occurs_at sub s p.
Proof.
  split.
  - intros H p Hp Hocc. apply occurs_at_drop in Hocc as [Hlen Hocc].
    unfold find in H.
    destruct (decide (start <= length s)) as [Hs|]; [|lia].
    pose proof (find_in_None _ _ _ H (p - start)) as Hn.
    rewrite length_drop, drop_drop in Hn.
    replace (start + (p - start)) with p in Hn by lia.
    rewrite Hn in Hocc by lia. discriminate.
  - intros H. destruct (find s sub start) as [p|] eqn:E; [|reflexivity].
    apply find_Some in E as (Hp & Hocc & _). exfalso. exact (H p Hp Hocc).
Qed.

Lemma depth_nil : depth [] = 0%Z.
Proof. reflexivity. Qed.

Lemma depth_cons (c : ascii) (s : text) :
  depth (c :: s) = (brace_step c + depth s)%Z.
Proof.
  unfold depth, count_char, brace_step. rewrite !filter_cons.
  destruct (Ascii.eqb_spec c "{") as [Ho|Ho];
    destruct (Ascii.eqb_spec c "}") as [Hc|Hc];
    repeat case_decide; try congruence; cbn [length]; lia.
Qed.

(** The loop, entered inside the braces ([brace_count >= 1]): either it
    breaks at the first index where the depth is back to 0, or the depth
    stays positive to the end and [brace_end] is left as it was. *)
Lemma brace_loop_spec (rest : text) (i : nat) (brace_count : Z)
    (brace_end : nat) :
  (1 <= brace_count)%Z ->
  (exists k, k < length rest /\ rest !! k = Some "}" /\
     brace_loop rest i brace_count brace_end = (0%Z, i + k) /\
     (brace_count + depth (take (S k) rest) = 0)%Z /\
     forall j, j < k -> (0 < brace_count + depth (take (S j) rest))%Z)
  \/
  (brace_loop rest i brace_count brace_end
     = ((brace_count + depth rest)%Z, brace_end) /\
   (0 < brace_count + depth rest)%Z /\
   forall j, j < length rest ->
             (0 < brace_count + depth (take (S j) rest))%Z).
Proof.
  revert i brace_count.
  induction rest as [|c rest IH]; intros i bc Hbc.
  - right. rewrite depth_nil. simpl. split; [f_equal; lia|].
    split; [lia|]. intros j Hj. lia.
  - assert (Hstep : forall bc',
      (1 <= bc')%Z -> (bc' = bc + brace_step c)%Z ->
      brace_loop (c :: rest) i bc brace_end
        = brace_loop rest (S i) bc' brace_end ->
      (exists k, k < length (c :: rest) /\ (c :: rest) !! k = Some "}" /\
         brace_loop (c :: rest) i bc brace_end = (0%Z, i + k) /\
         (bc + depth (take (S k) (c :: rest)) = 0)%Z /\
         forall j, j < k ->
                   (0 < bc + depth (take (S j) (c :: rest)))%Z)
      \/
      (brace_loop (c :: rest) i bc brace_end
         = ((bc + depth (c :: rest))%Z, brace_end) /\
       (0 < bc + depth (c :: rest))%Z /\
       forall j, j < length (c :: rest) ->
                 (0 < bc + depth (take (S j) (c :: rest)))%Z)).
    { intros bc' Hbc' Ebc' Eloop. rewrite Eloop.
      destruct (IH (S i) bc' Hbc')
        as [(k & Hk & Hch & Hres & Hzero & Hpos)|(Hres & Hend & Hpos)].
      - left. exists (S k). cbn [length]. split; [lia|].
        split; [exact Hch|].
        split; [rewrite Hres; f_equal; lia|].
        split.
        + cbn [take]. rewrite depth_cons. lia.
        + intros [|j] Hj.
          * cbn [take]. rewrite depth_cons, take_0, depth_nil. lia.
          * cbn [take]. rewrite depth_cons.
            specialize (Hpos j). lia.
      - right. rewrite depth_cons. split; [rewrite Hres; f_equal; lia|].
        split; [lia|].
        intros [|j] Hj.
        + cbn [take]. rewrite depth_cons, take_0, depth_nil. lia.
        + cbn [take length] in *. rewrite depth_cons.
          specialize (Hpos j). lia. }
    unfold brace_step in Hstep.
    destruct (Ascii.eqb c "{") eqn:Eo.
    + apply (Hstep (bc + 1)%Z); [lia | lia |].
      cbn [brace_loop]. rewrite Eo. reflexivity.
    + destruct (Ascii.eqb c "}") eqn:Ec.
      * destruct (Z.eqb_spec (bc - 1) 0) as [Hz|Hnz].
        -- left. exists 0. cbn [length]. split; [lia|].
           split; [apply Ascii.eqb_eq in Ec; subst c; reflexivity|].
           split.
           { cbn [brace_loop]. rewrite Eo, Ec.
             destruct (Z.eqb_spec (bc - 1) 0); [|lia].
             f_equal; lia. }
           split; [|intros j Hj; lia].
           cbn [take]. rewrite depth_cons, take_0, depth_nil.
           unfold brace_step. rewrite Eo, Ec. lia.
        -- apply (Hstep (bc - 1)%Z); [lia | lia |].
           cbn [brace_loop]. rewrite Eo, Ec.
           destruct (Z.eqb_spec (bc - 1) 0); [lia | reflexivity].
      * apply (Hstep bc); [lia | lia |].
        cbn [brace_loop]. rewrite Eo, Ec. reflexivity.
Qed.

Lemma occurs_at_brace (content : text) (q : nat) :
  occurs_at (lit "{") content q <-> exists rest, drop q content = "{" :: rest.
Proof.
  rewrite occurs_at_drop, startswith_spec. split.
  - intros (_ & post & H). exists post. exact H.
  - intros (rest & H). split.
    + destruct (decide (q <= length content)) as [|Hn]; [assumption|].
      rewrite drop_ge in H by lia. discriminate H.
    + exists rest. exact H.
Qed.

Lemma slice_from_brace (content rest : text) (q k : nat) :
  drop q content = "{" :: rest -> q <= k ->
  slice content q (S k) = "{" :: take (k - q) rest.
Proof.
  intros H Hk. unfold slice. rewrite H.
  replace (S k - q) with (S (k - q)) by lia. reflexivity.
Qed.

Lemma closes_at_unique (s : text) (q e e' : nat) :
  closes_at s q e -> closes_at s q e' -> e = e'.
Proof.
  intros (He & Hz & Hf) (He' & Hz' & Hf').
  destruct (Nat.lt_trichotomy e e') as [Hlt|[Heq|Hgt]]; [|exact Heq|].
  - exfalso. apply (Hf' e); [lia | exact Hz].
  - exfalso. apply (Hf e'); [lia | exact Hz'].
Qed.

Lemma closes_at_not_never (s : text) (q e : nat) :
  closes_at s q e -> ~ never_closes s q.
Proof.
  intros (He & Hz & _) Hn. apply (Hn e); [lia | exact Hz].
Qed.

(** The loop of the source, started on the opening brace at [q]. *)
Lemma brace_scan (content rest : text) (q : nat) :
  drop q content = "{" :: rest ->
  (exists e, closes_at content q e /\ content !! e = Some "}" /\
             brace_loop (drop q content) q 0 q = (0%Z, e))
  \/
  (never_closes content q /\
   exists n, n <> 0%Z /\ brace_loop (drop q content) q 0 q = (n, q)).
Proof.
  intros H.
  assert (Hlen : length content = q + S (length rest)).
  { assert (q <= length content) as Hq.
    { destruct (decide (q <= length content)) as [|Hn]; [assumption|].
      rewrite drop_ge in H by lia. discriminate H. }
    pose proof (f_equal length H) as E.
    rewrite length_drop in E. cbn [length] in E. lia. }
  assert (Hdepth : forall k, q <= k ->
            depth (slice content q (S k)) = (1 + depth (take (k - q) rest))%Z).
  { intros k Hk. rewrite (slice_from_brace content rest q k H Hk).
    rewrite depth_cons. reflexivity. }
  rewrite H. cbn [brace_loop]. change (Ascii.eqb "{" "{") with true.
  cbv iota. change (0 + 1)%Z with 1%Z.
  destruct (brace_loop_spec rest (S q) 1 q ltac:(lia))
    as [(k & Hk & Hch & Hres & Hzero & Hpos)|(Hres & Hend & Hpos)].
  - left. exists (S q + k). split; [|split; [|exact Hres]].
    2:{ rewrite <- (take_drop q content) at 1.
        rewrite lookup_app_r by (rewrite length_take; lia).
        rewrite length_take, H.
        replace (S q + k - q `min` length content) with (S k) by lia.
        exact Hch. }
    split; [lia|]. split.
    + rewrite Hdepth by lia. replace (S q + k - q) with (S k) by lia.
      exact Hzero.
    + intros k' Hk'. rewrite Hdepth by lia.
      destruct (decide (k' = q)) as [->|Hne].
      * rewrite Nat.sub_diag, take_0, depth_nil. lia.
      * specialize (Hpos (k' - q - 1)).
        replace (S (k' - q - 1)) with (k' - q) in Hpos by lia. lia.
  - right. split.
    + intros k' Hk'. rewrite Hdepth by lia.
      destruct (decide (k' = q)) as [->|Hne].
      * rewrite Nat.sub_diag, take_0, depth_nil. lia.
      * specialize (Hpos (k' - q - 1)).
        replace (S (k' - q - 1)) with (k' - q) in Hpos by lia. lia.
    + exists (1 + depth rest)%Z. split; [lia | exact Hres].
Qed.

(** What [extract_array] returns, by the outcome of its three steps. *)
Lemma extract_array_cases (needle content : text) :
  match find content needle 0 with
  | None => extract_array needle content = Raise (ValueError msg_no_array)
  | Some p =>
      match find content (lit "{") p with
      | None =>
          extract_array needle content
          = Raise (ValueError msg_no_opening_brace)
      | Some q =>
          (exists e, closes_at content q e /\ content !! e = Some "}" /\
             extract_array needle content = Ok (slice content (q + 1) e))
          \/
          (never_closes content q /\
           extract_array needle content
           = Raise (ValueError msg_no_closing_brace))
      end
  end.
Proof.
  unfold extract_array.
  destruct (find content needle 0) as [p|]; [|reflexivity].
  destruct (find content (lit "{") p) as [q|] eqn:Eq; [|reflexivity].
  apply find_Some in Eq as (_ & Hocc & _).
  apply occurs_at_brace in Hocc as (rest & Hrest).
  destruct (brace_scan content rest q Hrest)
    as [(e & Hclose & Hch & ->)|(Hnever & n & Hn & ->)].
  - left. exists e. split; [exact Hclose|]. split; [exact Hch|]. reflexivity.
  - right. split; [exact Hnever|].
    destruct (Z.eqb_spec n 0); [contradiction | reflexivity].
Qed.

(** [extract_array] returns a literal exactly when the description
    determines one, and then that one. *)
Lemma extract_array_located (needle content literal : text) :
  extract_array needle content = Ok literal <->
  located needle content literal.
Proof.
  pose proof (extract_array_cases needle content) as Hc.
  split.
  - intros H.
    destruct (find content needle 0) as [p|] eqn:Ep; [|congruence].
    destruct (find content (lit "{") p) as [q|] eqn:Eq; [|congruence].
    destruct Hc as [(e & Hclose & _ & He)|(_ & He)]; [|congruence].
    exists p, q, e. apply find_Some in Ep, Eq.
    split; [exact Ep|]. split; [exact Eq|]. split; [exact Hclose|].
    rewrite He in H. injection H as <-. reflexivity.
  - intros (p & q & e & Hp & Hq & Hclose & ->).
    apply find_Some in Hp, Hq. rewrite Hp, Hq in Hc.
    destruct Hc as [(e' & Hclose' & _ & He)|(Hnever & _)].
    + rewrite He. rewrite (closes_at_unique _ _ _ _ Hclose Hclose').
      reflexivity.
    + exfalso. exact (closes_at_not_never _ _ _ Hclose Hnever).
Qed.

Lemma between_braces (content : text) (q e : nat) :
  content !! q = Some "{" -> content !! e = Some "}" -> q <= e ->
  content = take q content ++ "{" :: slice content (q + 1) e
                           ++ "}" :: drop (S e) content.
Proof.
  intros Hq He Hle.
  assert (q < e) as Hlt.
  { destruct (decide (q = e)) as [->|]; [congruence | lia]. }
  rewrite <- (take_drop q content) at 1. f_equal.
  rewrite (drop_S _ _ _ Hq). f_equal.
  unfold slice. replace (q + 1) with (S q) by lia.
  rewrite <- (take_drop (e - S q) (drop (S q) content)) at 1. f_equal.
  rewrite drop_drop. replace (S q + (e - S q)) with e by lia.
  exact (drop_S _ _ _ He).
Qed.

Lemma occurs_at_brace_lookup (content : text) (q : nat) :
  occurs_at (lit "{") content q <-> content !! q = Some "{".
Proof.
  rewrite occurs_at_brace. split.
  - intros (rest & H).
    destruct (decide (q <= length content)) as [Hq|Hq].
    + rewrite <- (take_drop q content), H.
      rewrite lookup_app_r by (rewrite length_take; lia).
      rewrite length_take. replace (q - q `min` length content) with 0 by lia.
      reflexivity.
    + rewrite drop_ge in H by lia. discriminate H.
  - intros H. exists (drop (S q) content). exact (drop_S _ _ _ H).
Qed.

Lemma array_decl_name : array_decl = array_name ++ ["["].
Proof. reflexivity. Qed.

Lemma errors_distinct :
  ValueError msg_no_array <> ValueError msg_no_opening_brace /\
  ValueError msg_no_array <> ValueError msg_no_closing_brace /\
  ValueError msg_no_opening_brace <> ValueError msg_no_closing_brace.
Proof. repeat split; intros H; discriminate H. Qed.

(** The outcomes of [extract_array], each by its cause. *)
Lemma extract_array_not_found (needle content : text) :
  extract_array needle content = Raise NotFoundError <->
  ~ name_occurs needle content.
Proof.
  pose proof (extract_array_cases needle content) as Hc.
  pose proof errors_distinct as (D1 & D2 & D3).
  unfold NotFoundError, name_occurs.
  destruct (find content needle 0) as [p|] eqn:Ep.
  - apply find_Some in Ep as (_ & Hocc & _). split.
    + intros H. exfalso.
      destruct (find content (lit "{") p) as [q|].
      * destruct Hc as [(e & _ & _ & He)|(_ & He)]; congruence.
      * congruence.
    + intros H. exfalso. apply H. exists p. exact Hocc.
  - split; [|intros _; exact Hc].
    intros _ (i & Hi). rewrite find_None in Ep. apply (Ep i); [lia | exact Hi].
Qed.

Lemma extract_array_no_opening_brace (needle content : text) :
  extract_array needle content = Raise (ValueError msg_no_opening_brace) <->
  no_brace_follows needle content.
Proof.
  pose proof (extract_array_cases needle content) as Hc.
  pose proof errors_distinct as (D1 & D2 & D3).
  unfold no_brace_follows. split.
  - intros H.
    destruct (find content needle 0) as [p|] eqn:Ep; [|congruence].
    exists p. split; [apply find_Some; exact Ep|].
    destruct (find content (lit "{") p) as [q|] eqn:Eq.
    + destruct Hc as [(e & _ & _ & He)|(_ & He)]; congruence.
    + apply find_None. exact Eq.
  - intros (p & Hp & Hno). apply find_Some in Hp. apply find_None in Hno.
    rewrite Hp, Hno in Hc. exact Hc.
Qed.

Lemma extract_array_no_closing_brace (needle content : text) :
  extract_array needle content = Raise (ValueError msg_no_closing_brace) <->
  unbalanced needle content.
Proof.
  pose proof (extract_array_cases needle content) as Hc.
  pose proof errors_distinct as (D1 & D2 & D3).
  unfold unbalanced. split.
  - intros H.
    destruct (find content needle 0) as [p|] eqn:Ep; [|congruence].
    destruct (find content (lit "{") p) as [q|] eqn:Eq; [|congruence].
    destruct Hc as [(e & _ & _ & He)|(Hnever & _)]; [congruence|].
    exists p, q. rewrite find_Some in Ep, Eq. auto.
  - intros (p & q & Hp & Hq & Hnever). apply find_Some in Hp, Hq.
    rewrite Hp, Hq in Hc.
    destruct Hc as [(e & Hclose & _)|(_ & He)]; [|exact He].
    exfalso. exact (closes_at_not_never _ _ _ Hclose Hnever).
Qed.

Lemma extract_array_substring (needle content literal : text) :
  extract_array needle content = Ok literal ->
  exists pre post, content = pre ++ "{" :: literal ++ "}" :: post.
Proof.
  pose proof (extract_array_cases needle content) as Hc. intros H.
  destruct (find content needle 0) as [p|] eqn:Ep; [|congruence].
  destruct (find content (lit "{") p) as [q|] eqn:Eq; [|congruence].
  destruct Hc as [(e & Hclose & Hch & He)|(_ & He)]; [|congruence].
  rewrite He in H. injection H as <-.
  apply find_Some in Eq as (_ & Hq & _). apply occurs_at_brace_lookup in Hq.
  exists (take q content), (drop (S e) content).
  apply between_braces; [exact Hq | exact Hch | apply Hclose].
Qed.

Example locate_nested :
  extract_checkpoint_array_from header_nested
  = Ok (lit " {'\x00\x02'}, '\x13\x40' ").
Proof. reflexivity. Qed.

Example locate_no_brace :
  extract_checkpoint_array_from header_no_brace
  = Raise (ValueError msg_no_opening_brace).
Proof. reflexivity. Qed.

Example locate_unclosed :
  extract_checkpoint_array_from header_unclosed
  = Raise (ValueError msg_no_closing_brace).
Proof. reflexivity. Qed.

(** C2, as amended. Whenever the locator succeeds, it returns the text
    strictly between a brace and the brace that matches it: the brace is
    the first [{] at or after the first occurrence of the array's name
    immediately followed by [[], and the literal ends where the depth,
    counted up on [{] and down on [}] from that brace on, is back to 0
    for the first time. *)
Theorem locate_returns_braced_literal (content literal : text) :
  extract_checkpoint_array_from content = Ok literal ->
  located array_decl content literal /\
  exists pre post, content = pre ++ "{" :: literal ++ "}" :: post.
Proof.
  unfold extract_checkpoint_array_from. intros H. split.
  - apply extract_array_located. exact H.
  - exact (extract_array_substring _ _ _ H).
Qed.

Lemma locate_returns_braced_literal_witness :
  located array_decl header_nested (lit " {'\x00\x02'}, '\x13\x40' ") /\
  exists pre post,
    header_nested
    = pre ++ "{" :: lit " {'\x00\x02'}, '\x13\x40' " ++ "}" :: post.
Proof.
  apply (locate_returns_braced_literal header_nested).
  reflexivity.
Defined.

(** C2, as stated, fails: with the array's name alone as the string to
    find, the description yields the braces of the comment, and the
    locator returns the initializer of the declaration. *)
Lemma locate_first_name_counterexample :
  extract_checkpoint_array_from header_with_comment
  = Ok (lit "'\x00\x02\x13\x40'") /\
  ~ located array_name header_with_comment (lit "'\x00\x02\x13\x40'") /\
  located array_name header_with_comment (lit "height, chainwork").
Proof.
  split; [reflexivity|]. split.
  - intros H. apply extract_array_located in H. vm_compute in H.
    discriminate H.
  - apply extract_array_located. reflexivity.
Qed.

(** C3, as amended. The locator fails with [NotFoundError] exactly when
    the array's name immediately followed by [[] does not occur in the
    blob; it fails with a [MalformedLiteralError] exactly when no [{] is
    at or after the first such occurrence, or the depth counted from the
    first such brace never returns to 0 before the blob ends; in all
    other cases it returns a substring of the blob, enclosed in braces
    there. *)
Theorem locate_outcomes (content : text) :
  (extract_checkpoint_array_from content = Raise NotFoundError <->
   ~ name_occurs array_decl content) /\
  ((exists e, extract_checkpoint_array_from content = Raise e /\
              MalformedLiteralError e) <->
   no_brace_follows array_decl content \/ unbalanced array_decl content) /\
  ((exists literal, extract_checkpoint_array_from content = Ok literal) <->
   name_occurs array_decl content /\
   ~ no_brace_follows array_decl content /\
   ~ unbalanced array_decl content) /\
  (forall literal,
     extract_checkpoint_array_from content = Ok literal ->
     exists pre post, content = pre ++ "{" :: literal ++ "}" :: post).
Proof.
  unfold extract_checkpoint_array_from.
  pose proof (extract_array_not_found array_decl content) as Hnf.
  pose proof (extract_array_no_opening_brace array_decl content) as Hno.
  pose proof (extract_array_no_closing_brace array_decl content) as Hnc.
  split; [exact Hnf|]. split; [|split].
  - unfold MalformedLiteralError. split.
    + intros (e & He & [->| ->]); [left; apply Hno | right; apply Hnc];
        exact He.
    + intros [H|H]; [apply Hno in H | apply Hnc in H];
        eexists; (split; [exact H|]); [left | right]; reflexivity.
  - split.
    + intros (literal & H). split; [|split].
      * apply extract_array_located in H as (p & _ & _ & (_ & Hocc & _) & _).
        exists p. exact Hocc.
      * intros Hx. apply Hno in Hx. congruence.
      * intros Hx. apply Hnc in Hx. congruence.
    + intros (Hocc & Hbrace & Hbal).
      destruct (extract_array array_decl content) as [literal|e] eqn:E;
        [exists literal; reflexivity|].
      exfalso.
      pose proof (extract_array_cases array_decl content) as Hc.
      destruct (find content array_decl 0) as [p|] eqn:Ep.
      * destruct (find content (lit "{") p) as [q|] eqn:Eq.
        -- destruct Hc as [(e' & _ & _ & He)|(_ & He)]; [congruence|].
           apply Hbal, Hnc. congruence.
        -- apply Hbrace, Hno. congruence.
      * apply (proj1 Hnf); [unfold NotFoundError; congruence | exact Hocc].
  - intros literal H. exact (extract_array_substring _ _ _ H).
Qed.

(** C3, as stated, fails: the array's name occurs in the blob, and the
    locator fails with [NotFoundError] all the same. *)
Lemma locate_not_found_counterexample :
  ~ (extract_checkpoint_array_from header_spaced = Raise NotFoundError <->
     ~ name_occurs array_name header_spaced).
Proof.
  intros [H _]. apply H; [reflexivity|].
  exists 21. apply occurs_at_drop. split; [simpl; lia | reflexivity].
Qed.

(** *** What lies before the declaration is skipped *)

Lemma find_in_shift (sub s : text) (a i : nat) :
  find_in sub s (a + i) = (fun x => a + x) <$> find_in sub s i.
Proof.
  revert i. induction s as [|c s IH]; intros i; cbn [find_in].
  - destruct (startswith [] sub); reflexivity.
  - destruct (startswith (c :: s) sub); [reflexivity|].
    rewrite <- IH. f_equal. lia.
Qed.

Lemma find_app_skip (pre s sub : text) (k : nat) :
  find (pre ++ s) sub (length pre + k)
  = (fun x => length pre + x) <$> find s sub k.
Proof.
  unfold find. rewrite length_app, drop_app_add.
  destruct (decide (k <= length s)) as [Hk|Hk].
  - rewrite decide_True by lia. apply find_in_shift.
  - rewrite decide_False by lia. reflexivity.
Qed.

Lemma brace_loop_shift (rest : text) (a i : nat) (brace_count : Z)
    (brace_end : nat) :
  brace_loop rest (a + i) brace_count (a + brace_end)
  = (fst (brace_loop rest i brace_count brace_end),
     a + snd (brace_loop rest i brace_count brace_end)).
Proof.
  revert i brace_count. induction rest as [|c rest IH]; intros i bc;
    cbn [brace_loop]; [reflexivity|].
  replace (S (a + i)) with (a + S i) by lia.
  destruct (Ascii.eqb c "{"); [apply IH|].
  destruct (Ascii.eqb c "}"); [|apply IH].
  destruct (bc - 1 =? 0)%Z; [reflexivity | apply IH].
Qed.

Lemma slice_app_skip {A} (pre s : list A) (a b : nat) :
  slice (pre ++ s) (length pre + a) (length pre + b) = slice s a b.
Proof.
  unfold slice. rewrite drop_app_add. f_equal. lia.
Qed.

(** When [needle] first occurs right after [pre], the locator does on
    [pre ++ s] what it does on [s]. *)
Lemma extract_array_skip_prefix (needle pre s : text) :
  find (pre ++ s) needle 0 = Some (length pre) ->
  extract_array needle (pre ++ s) = extract_array needle s.
Proof.
  intros Hfind.
  assert (Hs : find s needle 0 = Some 0).
  { apply find_Some in Hfind as (_ & Hocc & _).
    apply occurs_at_drop in Hocc as [_ Hocc]. rewrite drop_app_length in Hocc.
    apply find_Some. split; [lia|]. split; [|intros j Hj; lia].
    apply occurs_at_drop. split; [lia | exact Hocc]. }
  unfold extract_array. rewrite Hfind, Hs.
  pose proof (find_app_skip pre s (lit "{") 0) as Hb.
  rewrite Nat.add_0_r in Hb. rewrite Hb.
  destruct (find s (lit "{") 0) as [q|]; [|reflexivity].
  cbn [fmap option_fmap option_map].
  rewrite drop_app_add, brace_loop_shift.
  destruct (brace_loop (drop q s) q 0 q) as [n e]. cbn [fst snd].
  destruct (negb (n =? 0)%Z); [reflexivity|].
  f_equal. replace (length pre + q + 1) with (length pre + (q + 1)) by lia.
  apply slice_app_skip.
Qed.

Lemma occurs_decl_name_bracket (content : text) (i : nat) :
  occurs_at array_decl content i ->
  occurs_at array_name content i /\
  content !! (i + length array_name) = Some "[".
Proof.
  intros (pre & post & -> & <-). rewrite array_decl_name. split.
  - exists pre, ("[" :: post). rewrite <- !app_assoc. split; reflexivity.
  - rewrite lookup_app_r by lia.
    replace (length pre + length array_name - length pre)
      with (length array_name) by lia.
    rewrite <- app_assoc. rewrite lookup_app_r by lia.
    rewrite Nat.sub_diag. reflexivity.
Qed.

(** C9. The locator matches the array's name only when [[] follows it
    immediately: on a blob in which the name occurs but never with [[]
    right after it, the locator fails with the not-found error; and what
    lies before the first occurrence of the name followed by [[], bare
    occurrences of the name included, changes nothing in the result. *)
Theorem locate_needs_bracket :
  (forall content,
     name_occurs array_name content ->
     (forall i, occurs_at array_name content i ->
                content !! (i + length array_name) <> Some "[") ->
     extract_checkpoint_array_from content = Raise NotFoundError) /\
  (forall pre rest,
     first_occurrence array_decl (pre ++ array_decl ++ rest) 0 (length pre) ->
     extract_checkpoint_array_from (pre ++ array_decl ++ rest)
     = extract_checkpoint_array_from (array_decl ++ rest)).
Proof.
  split.
  - intros content _ Hnever. apply extract_array_not_found.
    intros (i & Hi). apply occurs_decl_name_bracket in Hi as [Hocc Hch].
    exact (Hnever i Hocc Hch).
  - intros pre rest Hfirst. apply extract_array_skip_prefix.
    apply find_Some. exact Hfirst.
Qed.

Lemma locate_needs_bracket_witness :
  extract_checkpoint_array_from header_spaced = Raise NotFoundError /\
  extract_checkpoint_array_from header_with_comment
  = extract_checkpoint_array_from
      (lit "HSK_CHECKPOINT_MAIN[4] = {'\x00\x02\x13\x40'};").
Proof.
  split.
  - apply (proj1 locate_needs_bracket header_spaced).
    + exists 21. apply occurs_at_drop. split; [simpl; lia | reflexivity].
    + intros i Hi Hch. apply occurs_at_drop in Hi as [Hlen Hi].
      do 70 (destruct i as [|i];
             [try discriminate Hi; try discriminate Hch|]).
      simpl in Hlen. lia.
  - exact (proj2 locate_needs_bracket
             (lit "/* HSK_CHECKPOINT_MAIN: {height, chainwork} */ static const uint8_t ")
             (lit "4] = {'\x00\x02\x13\x40'};")
             ltac:(apply find_Some; reflexivity)).
Defined.

(** ** The round trip *)

Lemma find_0 (s sub : text) : find s sub 0 = find_in sub s 0.
Proof.
  unfold find. rewrite decide_True by lia. rewrite drop_0. reflexivity.
Qed.

Lemma find_in_here (sub s : text) (i : nat) :
  startswith s sub = true -> find_in sub s i = Some i.
Proof.
  intros H. destruct s; cbn [find_in]; rewrite H; reflexivity.
Qed.

Lemma find_in_app_prefix (sub pre s : text) (i : nat) :
  (forall k, k < length pre -> startswith (drop k pre ++ s) sub = false) ->
  find_in sub (pre ++ s) i = find_in sub s (i + length pre).
Proof.
  revert i. induction pre as [|c pre IH]; intros i H.
  - cbn [app length]. f_equal. lia.
  - pose proof (H 0 ltac:(cbn [length]; lia)) as H0.
    cbn [drop app] in H0. cbn [app find_in]. rewrite H0.
    rewrite IH.
    + f_equal. cbn [length]. lia.
    + intros k Hk. apply (H (S k)). cbn [length]. lia.
Qed.

Lemma find_in_brace_first (l r : text) (i : nat) :
  Forall (fun c => c <> "{") l ->
  find_in (lit "{") (l ++ "{" :: r) i = Some (i + length l).
Proof.
  intros H. revert i. induction H as [|c l Hc _ IH]; intros i.
  - cbn [app length]. rewrite Nat.add_0_r. apply find_in_here. reflexivity.
  - cbn [app find_in].
    assert (startswith (c :: l ++ "{" :: r) (lit "{") = false) as ->.
    { change (startswith (c :: l ++ "{" :: r) (lit "{"))
        with (Ascii.eqb "{" c && true).
      destruct (Ascii.eqb_spec "{" c) as [E|_]; [congruence|].
      reflexivity. }
    rewrite IH. f_equal. cbn [length]. lia.
Qed.

Lemma brace_loop_no_braces (l r : text) (i : nat) (brace_count : Z)
    (brace_end : nat) :
  Forall not_brace l ->
  brace_loop (l ++ r) i brace_count brace_end
  = brace_loop r (i + length l) brace_count brace_end.
Proof.
  intros H. revert i. induction H as [|c l [Ho Hc] _ IH]; intros i.
  - cbn [app length]. f_equal. lia.
  - cbn [app brace_loop].
    destruct (Ascii.eqb_spec c "{") as [E|_]; [congruence|].
    destruct (Ascii.eqb_spec c "}") as [E|_]; [congruence|].
    rewrite IH. f_equal. cbn [length]. lia.
Qed.

(** The locator returns a body without braces of its own that the
    declaration encloses in braces. *)
Lemma extract_array_enclosed (needle pre mid body post : text) :
  find (pre ++ needle ++ mid ++ "{" :: body ++ "}" :: post) needle 0
    = Some (length pre) ->
  Forall (fun c => c <> "{") (needle ++ mid) ->
  Forall not_brace body ->
  extract_array needle (pre ++ needle ++ mid ++ "{" :: body ++ "}" :: post)
  = Ok body.
Proof.
  intros Hfind Hmid Hbody.
  rewrite (extract_array_skip_prefix needle pre _ Hfind).
  unfold extract_array.
  rewrite find_0, find_in_here by (apply startswith_spec; eauto).
  rewrite app_assoc, find_0, (find_in_brace_first _ _ 0 Hmid).
  cbn [Nat.add]. rewrite drop_app_length.
  cbn [brace_loop]. change (Ascii.eqb "{" "{") with true. cbv iota.
  rewrite (brace_loop_no_braces body _ _ _ _ Hbody).
  cbn [brace_loop]. change (Ascii.eqb "}" "{") with false.
  change (Ascii.eqb "}" "}") with true. cbv iota.
  change (0 + 1 - 1 =? 0)%Z with true. cbv iota.
  change (negb (0 + 1 - 1 =? 0)%Z) with false. cbv iota.
  f_equal. unfold slice.
  replace (length (needle ++ mid) + 1) with (length ((needle ++ mid) ++ ["{"]))
    by (rewrite !length_app; reflexivity).
  replace ((needle ++ mid) ++ "{" :: body ++ "}" :: post)
    with (((needle ++ mid) ++ ["{"]) ++ body ++ "}" :: post)
    by (rewrite <- !app_assoc; reflexivity).
  rewrite drop_app_length.
  replace (S (length (needle ++ mid)) + length body
           - length ((needle ++ mid) ++ ["{"])) with (length body)
    by (rewrite !length_app; cbn [length]; lia).
  apply take_app_length.
Qed.

Lemma hex_char_class (d : Z) : in_hex_class (hex_char d) = true.
Proof.
  unfold hex_char. generalize (Z.to_nat d). intros n.
  do 17 (destruct n as [|n]; [reflexivity|]). reflexivity.
Qed.

Lemma hex_char_value (d : Z) :
  (0 <= d < 16)%Z -> digit_value 16 (hex_char d) = Some d.
Proof.
  intros Hd. unfold hex_char.
  rewrite <- (Z2Nat.id d) at 2 by lia.
  assert (Z.to_nat d < 16) as Hn by lia. revert Hn.
  generalize (Z.to_nat d). intros n Hn.
  do 16 (destruct n as [|n]; [reflexivity|]). lia.
Qed.

Lemma hex_char_not_brace (d : Z) : not_brace (hex_char d).
Proof.
  unfold hex_char. generalize (Z.to_nat d). intros n.
  do 17 (destruct n as [|n]; [split; discriminate|]). split; discriminate.
Qed.

Lemma findall_hex_skip (c : ascii) (rest : text) :
  Ascii.eqb c "\" = false -> findall_hex (c :: rest) = findall_hex rest.
Proof.
  intros Hc. destruct rest as [|c1 [|h1 [|h2 rest]]]; try reflexivity.
  cbn [findall_hex]. rewrite Hc. reflexivity.
Qed.

Lemma findall_hex_escape (b : byte) (rest : text) :
  findall_hex (hex_escape b ++ rest) = hex_digits b :: findall_hex rest.
Proof.
  unfold hex_escape, hex_digits. cbn [app findall_hex].
  rewrite !hex_char_class. reflexivity.
Qed.

Lemma findall_hex_encoded (data : list byte) (tail : text) :
  findall_hex (concat (map hex_escape data) ++ tail)
  = map hex_digits data ++ findall_hex tail.
Proof.
  induction data as [|b data IH]; [reflexivity|].
  cbn [map concat]. rewrite <- app_assoc, findall_hex_escape, IH.
  reflexivity.
Qed.

Lemma int_hex_digits (b : byte) : int_ (hex_digits b) 16 = Ok (int_of_byte b).
Proof.
  pose proof (int_of_byte_range b) as Hb. unfold hex_digits.
  rewrite (int_two_digits _ _ (int_of_byte b / 16) (int_of_byte b mod 16)).
  - f_equal. pose proof (Z.div_mod (int_of_byte b) 16). lia.
  - apply hex_char_value. split.
    + apply Z.div_pos; lia.
    + apply Z.div_lt_upper_bound; lia.
  - apply hex_char_value. apply Z.mod_pos_bound. lia.
Qed.

Lemma comprehension_hex_digits (data : list byte) :
  comprehension (fun hex_str => int_ hex_str 16) (map hex_digits data)
  = Ok (map int_of_byte data).
Proof.
  induction data as [|b data IH]; [reflexivity|].
  cbn [map comprehension]. rewrite int_hex_digits, IH. reflexivity.
Qed.

Lemma bytes_of_bytes (data : list byte) :
  bytes (map int_of_byte data) = Ok data.
Proof.
  induction data as [|b data IH]; [reflexivity|].
  cbn [map bytes]. pose proof (int_of_byte_range b) as Hb.
  destruct (Z.ltb_spec (int_of_byte b) 0); [lia|].
  unfold int_of_byte at 1. rewrite N2Z.id, Byte.of_to_N, IH. reflexivity.
Qed.

(** The decoder undoes the escapes. *)
Lemma decode_encode_literal (data : list byte) :
  extract_hex_strings (encode_literal data) = Ok data.
Proof.
  unfold extract_hex_strings, encode_literal. cbn zeta.
  rewrite findall_hex_skip by reflexivity.
  rewrite findall_hex_encoded. change (findall_hex [dquote]) with (@nil text).
  rewrite app_nil_r, comprehension_hex_digits.
  apply bytes_of_bytes.
Qed.

Lemma encode_literal_no_brace (data : list byte) :
  Forall not_brace (encode_literal data).
Proof.
  unfold encode_literal. constructor; [split; discriminate|].
  apply Forall_app. split; [|repeat constructor; discriminate].
  induction data as [|b data IH]; [constructor|].
  cbn [map concat]. apply Forall_app. split; [|exact IH].
  unfold hex_escape, hex_digits.
  repeat constructor; try discriminate; apply hex_char_not_brace.
Qed.

(** The locator undoes the declaration. *)
Lemma locate_encode_checkpoint (data : list byte) :
  extract_checkpoint_array_from (encode_checkpoint data)
  = Ok (encode_literal data).
Proof.
  unfold extract_checkpoint_array_from.
  change (encode_checkpoint data)
    with (lit "static const uint8_t " ++ array_decl ++ lit "] = "
          ++ "{" :: encode_literal data ++ "}" :: lit ";").
  apply extract_array_enclosed.
  - rewrite find_0. rewrite find_in_app_prefix.
    + apply find_in_here. apply startswith_spec. eauto.
    + intros k Hk.
      do 21 (destruct k as [|k]; [reflexivity|]).
      cbn [length lit list_ascii_of_string] in Hk. lia.
  - repeat constructor; discriminate.
  - apply encode_literal_no_brace.
Qed.

(** C8. Round trip: for every byte sequence, the locator followed by the
    decoder, run on the array declaration that encloses in braces the
    [\xNN] tokens of the bytes in order, give the byte sequence back. *)
Theorem locate_decode_round_trip (data : list byte) :
  (array_content ← extract_checkpoint_array_from (encode_checkpoint data);
   extract_hex_strings array_content) = Ok data.
Proof.
  rewrite locate_encode_checkpoint. cbn [mbind result_bind].
  apply decode_encode_literal.
Qed.

Example encode_height :
  encode_checkpoint [x00; x02; x13; x40]%byte
  = lit "static const uint8_t HSK_CHECKPOINT_MAIN[] = {"
    ++ dquote :: lit "\x00\x02\x13\x40" ++ dquote :: lit "};".
Proof. reflexivity. Qed.

(** ** The size and height checks *)

Lemma lor_shiftl_low (a b k : Z) :
  (0 <= k)%Z -> (0 <= b < 2 ^ k)%Z ->
  Z.lor (Z.shiftl a k) b = (a * 2 ^ k + b)%Z.
Proof.
  intros Hk Hb.
  assert (Hland : Z.land (Z.shiftl a k) b = 0%Z).
  { apply Z.bits_inj'. intros n Hn.
    rewrite Z.land_spec, Z.bits_0.
    destruct (Z.lt_ge_cases n k) as [Hlt|Hge].
    - rewrite Z.shiftl_spec_low by exact Hlt. reflexivity.
    - assert (Z.testbit b n = false) as ->; [|apply andb_false_r].
      destruct (Z.eq_dec b 0%Z) as [->|Hb0]; [apply Z.bits_0|].
      apply Z.bits_above_log2; [lia|].
      assert (Z.log2 b < k)%Z by (apply Z.log2_lt_pow2; lia). lia. }
  rewrite <- Z.lxor_lor by exact Hland.
  rewrite <- Z.add_nocarry_lxor by exact Hland.
  rewrite Z.shiftl_mul_pow2 by exact Hk. reflexivity.
Qed.

(** The shifts and ors of the source compute the big-endian integer. *)
Lemma height_big_endian (b0 b1 b2 b3 : byte) :
  Z.lor (Z.lor (Z.lor (Z.shiftl (int_of_byte b0) 24)
                      (Z.shiftl (int_of_byte b1) 16))
               (Z.shiftl (int_of_byte b2) 8))
        (int_of_byte b3)
  = big_endian [b0; b1; b2; b3].
Proof.
  pose proof (int_of_byte_range b0). pose proof (int_of_byte_range b1).
  pose proof (int_of_byte_range b2). pose proof (int_of_byte_range b3).
  unfold big_endian. cbn [foldl].
  replace (Z.shiftl (int_of_byte b0) 24)
    with (Z.shiftl (Z.shiftl (int_of_byte b0) 8) 16)
    by (rewrite Z.shiftl_shiftl by lia; reflexivity).
  rewrite <- Z.shiftl_lor.
  rewrite (lor_shiftl_low (int_of_byte b0) (int_of_byte b1) 8) by lia.
  replace (Z.shiftl (int_of_byte b0 * 2 ^ 8 + int_of_byte b1) 16)
    with (Z.shiftl (Z.shiftl (int_of_byte b0 * 2 ^ 8 + int_of_byte b1) 8) 8)
    by (rewrite Z.shiftl_shiftl by lia; reflexivity).
  rewrite <- Z.shiftl_lor.
  rewrite (lor_shiftl_low _ (int_of_byte b2) 8) by lia.
  rewrite (lor_shiftl_low _ (int_of_byte b3) 8) by lia.
  lia.
Qed.

Lemma big_endian_4_range (b0 b1 b2 b3 : byte) :
  (0 <= big_endian [b0; b1; b2; b3] < 2 ^ 32)%Z.
Proof.
  pose proof (int_of_byte_range b0). pose proof (int_of_byte_range b1).
  pose proof (int_of_byte_range b2). pose proof (int_of_byte_range b3).
  unfold big_endian. cbn [foldl]. lia.
Qed.

(** [main_validate] never raises, and prints the size lines, then the
    height lines. *)
Lemma main_validate_eq (data : list byte) :
  main_validate data = (size_lines data ++ height_lines data, Ok tt).
Proof.
  unfold main_validate, main_validate_with, size_lines, height_lines,
    expected_size.
  change (4 + 32 + 150 * 236)%Z with 35436%Z. cbn zeta.
  destruct (len data =? 35436)%Z;
    destruct data as [|b0 [|b1 [|b2 [|b3 tail]]]];
    try reflexivity.
  all: replace (len (b0 :: b1 :: b2 :: b3 :: tail) >=? 4)%Z with true
         by (symmetry; apply Z.geb_le; unfold len; cbn [length]; lia).
  all: cbn [slice drop take Nat.sub getitem lookup list_lookup lift
            mbind io_bind negb print app].
  all: rewrite height_big_endian.
  all: destruct (big_endian [b0; b1; b2; b3] =? 136000)%Z; reflexivity.
Qed.

Lemma printed_app (f : stream) (t1 t2 : list event) :
  printed f (t1 ++ t2) = printed f t1 ++ printed f t2.
Proof. apply omap_app. Qed.

Lemma printed_stdout_size (data : list byte) :
  printed stdout (size_lines data)
  = [MsgExtracted (len data); MsgExpectedSize 35436]
    ++ (if (len data =? 35436)%Z then [MsgSizeMatches] else []).
Proof. unfold size_lines. destruct (len data =? 35436)%Z; reflexivity. Qed.

Lemma printed_stderr_size (data : list byte) :
  printed stderr (size_lines data)
  = if (len data =? 35436)%Z then []
    else [MsgSizeMismatch 35436 (len data); MsgExtractionIssue].
Proof. unfold size_lines. destruct (len data =? 35436)%Z; reflexivity. Qed.

Lemma printed_stdout_height (data : list byte) :
  printed stdout (height_lines data)
  = match data with
    | b0 :: b1 :: b2 :: b3 :: _ =>
        MsgHeight (big_endian [b0; b1; b2; b3]) 136000
        :: (if (big_endian [b0; b1; b2; b3] =? 136000)%Z
            then [MsgHeightPassed] else [])
    | _ => []
    end.
Proof.
  destruct data as [|b0 [|b1 [|b2 [|b3 tail]]]]; try reflexivity.
  unfold height_lines. cbn zeta.
  destruct (big_endian [b0; b1; b2; b3] =? 136000)%Z; reflexivity.
Qed.

Lemma printed_stderr_height (data : list byte) :
  printed stderr (height_lines data)
  = match data with
    | b0 :: b1 :: b2 :: b3 :: _ =>
        if (big_endian [b0; b1; b2; b3] =? 136000)%Z then []
        else [MsgHeightMismatch 136000 (big_endian [b0; b1; b2; b3])]
    | _ => []
    end.
Proof.
  destruct data as [|b0 [|b1 [|b2 [|b3 tail]]]]; try reflexivity.
  unfold height_lines. cbn zeta.
  destruct (big_endian [b0; b1; b2; b3] =? 136000)%Z; reflexivity.
Qed.

Ltac solve_elem :=
  rewrite ?elem_of_app, ?elem_of_cons, ?elem_of_nil;
  intuition (discriminate || congruence).

Lemma sizeOk_validate (data : list byte) :
  sizeOk (main_validate data).1 = (len data =? 35436)%Z.
Proof.
  rewrite main_validate_eq. cbn [fst]. unfold sizeOk.
  rewrite printed_app, printed_stdout_size, printed_stdout_height.
  destruct (len data =? 35436)%Z.
  - apply bool_decide_eq_true_2. solve_elem.
  - apply bool_decide_eq_false_2.
    destruct data as [|b0 [|b1 [|b2 [|b3 tail]]]];
      try destruct (big_endian [b0; b1; b2; b3] =? 136000)%Z;
      solve_elem.
Qed.

(** C4. The validation takes [4 + 32 + 150*236 = 35436] for the
    expected size and reports that the size matches if and only if the
    byte sequence has exactly that length, the mismatch being a warning
    otherwise; for a byte sequence of length 35435 it does not report a
    match. *)
Theorem validate_size (data : list byte) :
  expected_size = 35436%Z /\
  (sizeOk (main_validate data).1 = true <-> len data = 35436%Z) /\
  (len data <> 35436%Z ->
   MsgSizeMismatch 35436 (len data)
     ∈ printed stderr (main_validate data).1) /\
  (len data = 35435%Z -> sizeOk (main_validate data).1 = false).
Proof.
  split; [reflexivity|]. rewrite sizeOk_validate.
  split; [apply Z.eqb_eq|]. split.
  - intros Hne. rewrite main_validate_eq. cbn [fst].
    rewrite printed_app, printed_stderr_size.
    apply Z.eqb_neq in Hne. rewrite Hne. solve_elem.
  - intros Hlen. apply Z.eqb_neq. lia.
Qed.

Lemma validate_size_witness :
  sizeOk (main_validate (replicate (Z.to_nat 35435) x00%byte)).1 = false.
Proof.
  apply (proj2 (proj2 (proj2
           (validate_size (replicate (Z.to_nat 35435) x00%byte))))).
  unfold len. rewrite length_replicate. apply Z2Nat.id. lia.
Defined.

Lemma take_4 {A} (b0 b1 b2 b3 : A) (tail : list A) :
  take 4 (b0 :: b1 :: b2 :: b3 :: tail) = [b0; b1; b2; b3].
Proof. reflexivity. Qed.

Lemma len_short {A} (l : list A) :
  (len l < 4)%Z ->
  match l with
  | _ :: _ :: _ :: _ :: _ => False
  | _ => True
  end.
Proof.
  destruct l as [|b0 [|b1 [|b2 [|b3 tail]]]]; try (intros _; exact I).
  unfold len. cbn [length]. lia.
Qed.

Lemma len_long {A} (l : list A) :
  (4 <= len l)%Z -> exists b0 b1 b2 b3 tail, l = b0 :: b1 :: b2 :: b3 :: tail.
Proof.
  destruct l as [|b0 [|b1 [|b2 [|b3 tail]]]];
    try (unfold len; cbn [length]; lia).
  intros _. eauto 6.
Qed.

Lemma reported_heights_validate (data : list byte) :
  reported_heights (main_validate data).1
  = match data with
    | b0 :: b1 :: b2 :: b3 :: _ => [big_endian [b0; b1; b2; b3]]
    | _ => []
    end.
Proof.
  rewrite main_validate_eq. cbn [fst]. unfold reported_heights.
  rewrite printed_app, printed_stdout_size, printed_stdout_height.
  rewrite !omap_app.
  destruct (len data =? 35436)%Z;
    destruct data as [|b0 [|b1 [|b2 [|b3 tail]]]]; try reflexivity;
    destruct (big_endian [b0; b1; b2; b3] =? 136000)%Z; reflexivity.
Qed.

Lemma heightOk_validate (data : list byte) :
  heightOk (main_validate data).1
  = match data with
    | b0 :: b1 :: b2 :: b3 :: _ => (big_endian [b0; b1; b2; b3] =? 136000)%Z
    | _ => false
    end.
Proof.
  rewrite main_validate_eq. cbn [fst]. unfold heightOk.
  rewrite printed_app, printed_stdout_size, printed_stdout_height.
  destruct (len data =? 35436)%Z;
    destruct data as [|b0 [|b1 [|b2 [|b3 tail]]]];
    try (apply bool_decide_eq_false_2; solve_elem);
    destruct (big_endian [b0; b1; b2; b3] =? 136000)%Z;
    try (apply bool_decide_eq_false_2; solve_elem);
    apply bool_decide_eq_true_2; solve_elem.
Qed.

(** C5. On a byte sequence of at least 4 bytes the validation reports as
    height the unsigned 32-bit big-endian integer of the first 4 bytes,
    and reports the height as verified if and only if it is 136000; the
    bytes 00 02 13 40 are verified, the bytes 00 00 00 01 give height 1,
    not verified; on fewer than 4 bytes no height is reported and none is
    verified. *)
Theorem validate_height :
  (forall data, (4 <= len data)%Z ->
     reported_heights (main_validate data).1 = [big_endian (take 4 data)] /\
     (0 <= big_endian (take 4 data) < 2 ^ 32)%Z /\
     (heightOk (main_validate data).1 = true <->
      big_endian (take 4 data) = 136000%Z)) /\
  (forall data, (len data < 4)%Z ->
     reported_heights (main_validate data).1 = [] /\
     heightOk (main_validate data).1 = false) /\
  (forall tail,
     heightOk (main_validate ([x00; x02; x13; x40]%byte ++ tail)).1 = true) /\
  (forall tail,
     reported_heights (main_validate ([x00; x00; x00; x01]%byte ++ tail)).1
       = [1%Z] /\
     heightOk (main_validate ([x00; x00; x00; x01]%byte ++ tail)).1 = false).
Proof.
  split; [|split; [|split]].
  - intros data Hlen.
    destruct (len_long data Hlen) as (b0 & b1 & b2 & b3 & tail & ->).
    rewrite reported_heights_validate, heightOk_validate, take_4.
    split; [reflexivity|]. split; [apply big_endian_4_range|].
    apply Z.eqb_eq.
  - intros data Hlen. apply len_short in Hlen.
    rewrite reported_heights_validate, heightOk_validate.
    destruct data as [|b0 [|b1 [|b2 [|b3 tail]]]];
      try (split; reflexivity).
    contradiction.
  - intros tail. rewrite heightOk_validate. reflexivity.
  - intros tail. rewrite reported_heights_validate, heightOk_validate.
    split; reflexivity.
Qed.

Lemma validate_height_witness :
  reported_heights (main_validate [x00; x02; x13; x41; xff]%byte).1
    = [big_endian (take 4 [x00; x02; x13; x41; xff]%byte)] /\
  (0 <= big_endian (take 4 [x00; x02; x13; x41; xff]%byte) < 2 ^ 32)%Z /\
  (heightOk (main_validate [x00; x02; x13; x41; xff]%byte).1 = true <->
   big_endian (take 4 [x00; x02; x13; x41; xff]%byte) = 136000%Z).
Proof.
  apply (proj1 validate_height [x00; x02; x13; x41; xff]%byte).
  unfold len. simpl. lia.
Defined.

Example height_136001 :
  reported_heights (main_validate [x00; x02; x13; x41; xff]%byte).1
  = [136001%Z].
Proof. reflexivity. Qed.

(** ** The artifact is written whatever the checks say *)

Lemma written_app (t1 t2 : list event) :
  written (t1 ++ t2) = written t1 ++ written t2.
Proof. apply omap_app. Qed.

Lemma written_validate (data : list byte) :
  written (main_validate data).1 = [].
Proof.
  rewrite main_validate_eq. cbn [fst]. rewrite written_app.
  unfold size_lines, height_lines.
  destruct (len data =? 35436)%Z;
    destruct data as [|b0 [|b1 [|b2 [|b3 tail]]]]; try reflexivity;
    cbn zeta; destruct (big_endian [b0; b1; b2; b3] =? 136000)%Z;
    reflexivity.
Qed.

Lemma io_bind_ok {A B} (t : list event) (a : A) (k : A -> io B) :
  ((t, Ok a) ≫= k) = (t ++ (k a).1, (k a).2).
Proof. unfold mbind, io_bind. destruct (k a). reflexivity. Qed.

Lemma io_bind_ret {A B} (a : A) (k : A -> io B) : (mret a ≫= k) = k a.
Proof. unfold mret, io_ret. rewrite io_bind_ok. destruct (k a). reflexivity. Qed.

Lemma io_bind_lift {A B} (a : A) (k : A -> io B) : (lift (Ok a) ≫= k) = k a.
Proof. apply io_bind_ret. Qed.

Lemma io_bind_print {B} (m : message) (f : stream) (k : unit -> io B) :
  (print m f ≫= k) = (Print f m :: (k tt).1, (k tt).2).
Proof. unfold print. rewrite io_bind_ok. reflexivity. Qed.

Lemma print_on_accepted (out : console) (m : message) (f : stream) :
  out f m = Ok tt -> print_on out m f = print m f.
Proof. intros H. unfold print_on. rewrite H. reflexivity. Qed.

(** On streams that take the lines of the checks, the checks run as on
    streams that take every line. *)
Lemma main_validate_accepted (out : console) (data : list byte) :
  (forall f m, Print f m ∈ (main_validate data).1 -> out f m = Ok tt) ->
  main_validate_with (print_on out) data = main_validate data.
Proof.
  intros H. rewrite main_validate_eq in H. cbn [fst] in H.
  unfold main_validate, main_validate_with.
  unfold size_lines, height_lines, expected_size in *.
  change (4 + 32 + 150 * 236)%Z with 35436%Z in *. cbn zeta in *.
  rewrite !(print_on_accepted out (MsgExtracted _))
    by (apply H; solve_elem).
  rewrite !(print_on_accepted out (MsgExpectedSize _))
    by (apply H; solve_elem).
  destruct (len data =? 35436)%Z; cbn [negb] in *.
  - rewrite !(print_on_accepted out MsgSizeMatches)
      by (apply H; solve_elem).
    destruct data as [|b0 [|b1 [|b2 [|b3 tail]]]]; try reflexivity.
    replace (len (b0 :: b1 :: b2 :: b3 :: tail) >=? 4)%Z with true
      by (symmetry; apply Z.geb_le; unfold len; cbn [length]; lia).
    cbn [slice drop take Nat.sub getitem lookup list_lookup].
    rewrite !io_bind_lift, height_big_endian.
    rewrite !(print_on_accepted out (MsgHeight _ _))
      by (apply H; solve_elem).
    destruct (big_endian [b0; b1; b2; b3] =? 136000)%Z; cbn [negb] in *.
    + rewrite (print_on_accepted out MsgHeightPassed)
        by (apply H; solve_elem).
      reflexivity.
    + rewrite (print_on_accepted out (MsgHeightMismatch _ _))
        by (apply H; solve_elem).
      reflexivity.
  - rewrite !(print_on_accepted out (MsgSizeMismatch _ _))
      by (apply H; solve_elem).
    rewrite !(print_on_accepted out MsgExtractionIssue)
      by (apply H; solve_elem).
    destruct data as [|b0 [|b1 [|b2 [|b3 tail]]]]; try reflexivity.
    replace (len (b0 :: b1 :: b2 :: b3 :: tail) >=? 4)%Z with true
      by (symmetry; apply Z.geb_le; unfold len; cbn [length]; lia).
    cbn [slice drop take Nat.sub getitem lookup list_lookup].
    rewrite !io_bind_lift, height_big_endian.
    rewrite !(print_on_accepted out (MsgHeight _ _))
      by (apply H; solve_elem).
    destruct (big_endian [b0; b1; b2; b3] =? 136000)%Z; cbn [negb] in *.
    + rewrite (print_on_accepted out MsgHeightPassed)
        by (apply H; solve_elem).
      reflexivity.
    + rewrite (print_on_accepted out (MsgHeightMismatch _ _))
        by (apply H; solve_elem).
      reflexivity.
Qed.

Lemma main_write_eq (fs : filesystem) (out : console) (output_file : path)
    (data : list byte) :
  mkdir_parents fs (parent output_file) = Ok tt ->
  write_bytes fs output_file data = Ok tt ->
  out stdout (MsgWrote output_file) = Ok tt ->
  out stdout (MsgFileSize (len data)) = Ok tt ->
  main_write fs out output_file data
  = ([Mkdir (parent output_file); WriteFile output_file data;
      Print stdout (MsgWrote output_file);
      Print stdout (MsgFileSize (len data))], Ok tt).
Proof.
  intros Hm Hw Ho1 Ho2. unfold main_write, mkdir, open_write, print_on.
  rewrite Hm, Hw, Ho1, Ho2. reflexivity.
Qed.

(** A run of [main] on a header that is located and decoded, the
    collaborators and the streams taking what the run gives them. *)
Lemma main_eq (fs : filesystem) (out : console) (project_root : path)
    (argv : list path) (content array_content : text) (data : list byte) :
  exists_ fs (input_file_of project_root argv) = Ok true ->
  read_text fs (input_file_of project_root argv) = Ok content ->
  extract_checkpoint_array_from content = Ok array_content ->
  extract_hex_strings array_content = Ok data ->
  out stdout (MsgReading (input_file_of project_root argv)) = Ok tt ->
  (forall f m, Print f m ∈ (main_validate data).1 -> out f m = Ok tt) ->
  out stdout (MsgWrote (output_file_of project_root argv)) = Ok tt ->
  out stdout (MsgFileSize (len data)) = Ok tt ->
  mkdir_parents fs (parent (output_file_of project_root argv)) = Ok tt ->
  write_bytes fs (output_file_of project_root argv) data = Ok tt ->
  main fs out project_root argv
  = (Print stdout (MsgReading (input_file_of project_root argv))
       :: (main_validate data).1
       ++ [Mkdir (parent (output_file_of project_root argv));
           WriteFile (output_file_of project_root argv) data;
           Print stdout (MsgWrote (output_file_of project_root argv));
           Print stdout (MsgFileSize (len data))],
     Ok tt).
Proof.
  intros He Hr Hl Hd Ho1 Ho2 Ho3 Ho4 Hm Hw.
  unfold main, extract_checkpoint_array. cbn zeta.
  rewrite He, Hr, io_bind_lift. cbn [negb mbind result_bind].
  change (io_bind ?A ?B ?k ?m) with (m ≫= k).
  rewrite io_bind_ret, (print_on_accepted _ _ _ Ho1), io_bind_print.
  rewrite Hl, io_bind_lift, Hd, io_bind_lift.
  rewrite (main_validate_accepted out data Ho2).
  rewrite (main_write_eq _ _ _ _ Hm Hw Ho3 Ho4), main_validate_eq, io_bind_ok.
  reflexivity.
Qed.

Example main_missing_input :
  main fs_empty unicode_console sample_root
    [sample_script; sample_input; sample_output]
  = ([Print stderr (MsgInputNotFound sample_input)], Raise (SystemExit 1)).
Proof. reflexivity. Qed.

Example main_default_paths :
  main fs_empty unicode_console sample_root [sample_script]
  = ([Print stderr
        (MsgInputNotFound
           ["repo"; "android"; "checkpoints.h"]%string)],
     Raise (SystemExit 1)).
Proof. reflexivity. Qed.

Example main_not_found :
  main (fs_holding header_spaced) unicode_console sample_root
    [sample_script; sample_input; sample_output]
  = ([Print stdout (MsgReading sample_input);
      Print stderr (MsgError (ValueError msg_no_array))],
     Raise (SystemExit 1)).
Proof. reflexivity. Qed.

Example main_header_nested :
  main (fs_holding header_nested) unicode_console sample_root
    [sample_script; sample_input; sample_output]
  = ([Print stdout (MsgReading sample_input);
      Print stdout (MsgExtracted 4);
      Print stdout (MsgExpectedSize 35436);
      Print stderr (MsgSizeMismatch 35436 4);
      Print stderr MsgExtractionIssue;
      Print stdout (MsgHeight 136000 136000);
      Print stdout MsgHeightPassed;
      Mkdir ["out"%string];
      WriteFile sample_output [x00; x02; x13; x40]%byte;
      Print stdout (MsgWrote sample_output);
      Print stdout (MsgFileSize 4)],
     Ok tt).
Proof. reflexivity. Qed.

(** On a stream that cannot encode the check mark, the line of the
    height that passes raises inside the [try]: the run reports the
    error, exits with status 1 and writes nothing. *)
Example main_header_nested_ascii :
  main (fs_holding header_nested) ascii_console sample_root
    [sample_script; sample_input; sample_output]
  = ([Print stdout (MsgReading sample_input);
      Print stdout (MsgExtracted 4);
      Print stdout (MsgExpectedSize 35436);
      Print stderr (MsgSizeMismatch 35436 4);
      Print stderr MsgExtractionIssue;
      Print stdout (MsgHeight 136000 136000);
      Print stderr
        (MsgError
           (ValueError
              "'ascii' codec can't encode character '\u2713'"))],
     Raise (SystemExit 1)).
Proof. reflexivity. Qed.

(** The test for the input file is outside the [try]: what it raises
    leaves [main]. *)
Example main_exists_raises :
  main fs_name_too_long unicode_console sample_root
    [sample_script; sample_input; sample_output]
  = ([], Raise (OSError "File name too long")).
Proof. reflexivity. Qed.

(** C6. The checks change nothing in the decoded bytes and raise
    nothing on a mismatch: they write nothing, a mismatch of the size or
    of the height is a line on the error stream, and the run of the
    tool, whatever its arguments and whatever the size and the height
    are, ends normally having written exactly the decoded bytes to the
    output path. This holds when the collaborators that create the
    directory and write the file do not fail and the streams take the
    lines of the run: every line without the check mark, and a line with
    the check mark when the checks print it (they print none when both
    checks fail). *)
Theorem mismatch_still_writes (fs : filesystem) (out : console)
    (project_root : path) (argv : list path)
    (content array_content : text) (data : list byte) :
  exists_ fs (input_file_of project_root argv) = Ok true ->
  read_text fs (input_file_of project_root argv) = Ok content ->
  extract_checkpoint_array_from content = Ok array_content ->
  extract_hex_strings array_content = Ok data ->
  (forall f m, is_check_mark m = false -> out f m = Ok tt) ->
  (forall f m, is_check_mark m = true ->
               Print f m ∈ (main_validate data).1 -> out f m = Ok tt) ->
  mkdir_parents fs (parent (output_file_of project_root argv)) = Ok tt ->
  write_bytes fs (output_file_of project_root argv) data = Ok tt ->
  (main_validate_with (print_on out) data).2 = Ok tt /\
  written (main_validate_with (print_on out) data).1 = [] /\
  (main fs out project_root argv).2 = Ok tt /\
  written (main fs out project_root argv).1
    = [(output_file_of project_root argv, data)] /\
  printed stderr (main fs out project_root argv).1
    = printed stderr (main_validate data).1 /\
  (len data <> 35436%Z ->
   MsgSizeMismatch 35436 (len data)
     ∈ printed stderr (main fs out project_root argv).1) /\
  ((4 <= len data)%Z -> big_endian (take 4 data) <> 136000%Z ->
   MsgHeightMismatch 136000 (big_endian (take 4 data))
     ∈ printed stderr (main fs out project_root argv).1).
Proof.
  intros He Hr Hl Hd Hplain Hmark Hm Hw.
  assert (Hchecks : forall f m,
            Print f m ∈ (main_validate data).1 -> out f m = Ok tt).
  { intros f m Hin. destruct (is_check_mark m) eqn:E.
    - exact (Hmark f m E Hin).
    - exact (Hplain f m E). }
  rewrite (main_eq fs out project_root argv content array_content data
             He Hr Hl Hd (Hplain stdout (MsgReading _) eq_refl) Hchecks
             (Hplain stdout (MsgWrote _) eq_refl)
             (Hplain stdout (MsgFileSize _) eq_refl) Hm Hw).
  rewrite (main_validate_accepted out data Hchecks).
  cbn [fst snd].
  assert (Hstderr :
    printed stderr
      (Print stdout (MsgReading (input_file_of project_root argv))
       :: (main_validate data).1
       ++ [Mkdir (parent (output_file_of project_root argv));
           WriteFile (output_file_of project_root argv) data;
           Print stdout (MsgWrote (output_file_of project_root argv));
           Print stdout (MsgFileSize (len data))])
    = printed stderr (main_validate data).1).
  { change (printed stderr (Print stdout ?m :: ?t))
      with (printed stderr t).
    rewrite printed_app. cbn. apply app_nil_r. }
  rewrite Hstderr.
  split; [rewrite main_validate_eq; reflexivity|].
  split; [apply written_validate|].
  split; [reflexivity|]. split; [|split; [reflexivity|split]].
  - change (written (?e :: ?t)) with (written t).
    rewrite written_app, written_validate. reflexivity.
  - intros Hne. rewrite main_validate_eq. cbn [fst].
    rewrite printed_app, printed_stderr_size.
    apply Z.eqb_neq in Hne. rewrite Hne. solve_elem.
  - intros Hlen Hne.
    destruct (len_long data Hlen) as (b0 & b1 & b2 & b3 & tail & ->).
    rewrite take_4 in *. rewrite main_validate_eq. cbn [fst].
    rewrite printed_app, printed_stderr_height.
    apply Z.eqb_neq in Hne. rewrite Hne. solve_elem.
Qed.

(** On streams that cannot encode the check mark, a header of 4 bytes
    with another height: both checks fail, and the bytes are written. *)
Lemma mismatch_still_writes_witness :
  (main (fs_holding header_height_1) ascii_console sample_root
     [sample_script; sample_input; sample_output]).2 = Ok tt /\
  written (main (fs_holding header_height_1) ascii_console sample_root
             [sample_script; sample_input; sample_output]).1
    = [(sample_output, [x00; x00; x00; x01]%byte)] /\
  MsgSizeMismatch 35436 4
    ∈ printed stderr
        (main (fs_holding header_height_1) ascii_console sample_root
           [sample_script; sample_input; sample_output]).1 /\
  MsgHeightMismatch 136000 1
    ∈ printed stderr
        (main (fs_holding header_height_1) ascii_console sample_root
           [sample_script; sample_input; sample_output]).1.
Proof.
  assert (Hplain : forall f m,
            is_check_mark m = false -> ascii_console f m = Ok tt).
  { intros f m H. unfold ascii_console. rewrite H. reflexivity. }
  assert (Hmark : forall f m,
            is_check_mark m = true ->
            Print f m ∈ (main_validate [x00; x00; x00; x01]%byte).1 ->
            ascii_console f m = Ok tt).
  { intros f m H Hin. exfalso. cbn in Hin.
    repeat (apply elem_of_cons in Hin as [Hin|Hin];
            [injection Hin as -> ->; discriminate H|]).
    apply elem_of_nil in Hin. exact Hin. }
  pose proof (mismatch_still_writes (fs_holding header_height_1)
                ascii_console sample_root
                [sample_script; sample_input; sample_output]
                header_height_1 (lit "'\x00\x00\x00\x01'")
                [x00; x00; x00; x01]%byte
                eq_refl eq_refl eq_refl eq_refl Hplain Hmark
                eq_refl eq_refl)
    as (_ & _ & Hok & Hw & _ & Hsize & Hheight).
  split; [exact Hok|]. split; [exact Hw|]. split.
  - apply Hsize. discriminate.
  - apply Hheight; [unfold len; simpl; lia | discriminate].
Defined.

(** ** What the run states *)

Lemma stated_validate (kind : message -> option Z) (data : list byte) :
  stated kind (main_validate data).1
  = omap kind (printed stdout (size_lines data))
    ++ omap kind (printed stdout (height_lines data))
    ++ omap kind (printed stderr (size_lines data))
    ++ omap kind (printed stderr (height_lines data)).
Proof.
  rewrite main_validate_eq. cbn [fst]. unfold stated.
  rewrite !printed_app, !omap_app, <- !app_assoc. reflexivity.
Qed.

(** C7, as amended. Every run that reaches the validation states the
    actual and the expected size; it states the actual and the expected
    height when the decoded byte sequence has at least 4 bytes, and
    states nothing of the height when it is shorter. *)
Theorem validate_states_size_and_height :
  (forall data,
     len data ∈ stated actual_size (main_validate data).1 /\
     35436%Z ∈ stated expected_size_of (main_validate data).1) /\
  (forall data, (4 <= len data)%Z ->
     big_endian (take 4 data) ∈ stated actual_height (main_validate data).1 /\
     136000%Z ∈ stated expected_height (main_validate data).1) /\
  (forall data, (len data < 4)%Z ->
     stated actual_height (main_validate data).1 = [] /\
     stated expected_height (main_validate data).1 = []).
Proof.
  split; [|split].
  - intros data. rewrite !stated_validate, printed_stdout_size.
    split; cbn [omap list_omap app actual_size expected_size_of]; solve_elem.
  - intros data Hlen.
    destruct (len_long data Hlen) as (b0 & b1 & b2 & b3 & tail & ->).
    rewrite !stated_validate, printed_stdout_height, take_4.
    split; cbn [omap list_omap app actual_height expected_height];
      solve_elem.
  - intros data Hlen. apply len_short in Hlen.
    rewrite !stated_validate, printed_stdout_size, printed_stderr_size.
    destruct data as [|b0 [|b1 [|b2 [|b3 tail]]]]; try contradiction;
      destruct (len _ =? 35436)%Z; split; reflexivity.
Qed.

Lemma validate_states_size_and_height_witness :
  big_endian (take 4 [x00; x00; x00; x01]%byte)
    ∈ stated actual_height (main_validate [x00; x00; x00; x01]%byte).1 /\
  136000%Z
    ∈ stated expected_height (main_validate [x00; x00; x00; x01]%byte).1.
Proof.
  apply (proj1 (proj2 validate_states_size_and_height)).
  unfold len. simpl. lia.
Defined.

(** C7, as stated, fails: on three bytes the run states no height,
    actual or expected. *)
Lemma short_run_states_no_height :
  ~ (stated actual_height (main_validate [x00; x02; x13]%byte).1 <> [] /\
     stated expected_height (main_validate [x00; x02; x13]%byte).1 <> []).
Proof. intros [H _]. apply H. reflexivity. Qed.

(** ** The log cleaner *)

Lemma contains_spec (s sub : text) :
  contains s sub = true <-> exists pre post, s = pre ++ sub ++ post.
Proof.
  unfold contains. split.
  - destruct (find s sub 0) as [p|] eqn:E; [|discriminate].
    intros _. apply find_Some in E as (_ & (pre & post & H & _) & _).
    eauto.
  - intros (pre & post & H).
    destruct (find s sub 0) as [p|] eqn:E; [reflexivity|].
    exfalso. rewrite find_None in E.
    apply (E (length pre)); [lia|]. exists pre, post. auto.
Qed.

Lemma contains_inside (s sub a b : text) :
  contains s (a ++ sub ++ b) = true -> contains s sub = true.
Proof.
  rewrite !contains_spec. intros (pre & post & ->).
  exists (pre ++ a), (b ++ post). rewrite <- !app_assoc. reflexivity.
Qed.

Section CleanLogsProperties.

Variable re_search_IP re_search_IPV6 re_search_hash : text -> bool.
Variable re_finditer_DOMAIN : text -> list text.
Variable re_match_LOG : text -> bool.
Variable lower strip : text -> text.

Local Abbreviation removes' :=
  (removes re_search_IP re_search_IPV6 re_search_hash re_finditer_DOMAIN
     re_match_LOG lower strip).
Local Abbreviation clean_loop' :=
  (clean_loop re_search_IP re_search_IPV6 re_search_hash re_finditer_DOMAIN
     re_match_LOG lower strip).

Lemma removes_has_log (line : text) :
  removes' line = true -> contains line (lit "Log.") = true.
Proof.
  unfold removes. intros H.
  apply orb_prop in H as [H|H].
  - apply andb_prop in H as [H _]. apply orb_prop in H as [H|H].
    + exact (contains_inside line (lit "Log.") [] (lit "d") H).
    + exact (contains_inside line (lit "Log.") (lit "android.util.")
               (lit "d") H).
  - apply andb_prop in H as [H _]. exact H.
Qed.

(** The loop keeps the lines it does not drop, after those kept so
    far, and counts the others. *)
Lemma clean_loop_filter (lines cleaned_lines : list text)
    (removed_count : Z) :
  clean_loop' lines cleaned_lines removed_count
  = (cleaned_lines ++ filter (fun line => removes' line = false) lines,
     (removed_count + len lines
      - len (filter (fun line => removes' line = false) lines))%Z).
Proof.
  revert cleaned_lines removed_count.
  induction lines as [|line lines IH]; intros acc n.
  - cbn. rewrite app_nil_r. f_equal. unfold len. cbn. lia.
  - cbn [clean_loop].
    rewrite filter_cons.
    assert (Hr : removes' line
                 = (contains line (lit "Log.d")
                    || contains line (lit "android.util.Log.d"))
                   && is_log_statement re_match_LOG strip line
                   || contains line (lit "Log.")
                      && contains_sensitive_data re_search_IP
                           re_search_IPV6 re_search_hash
                           re_finditer_DOMAIN lower line)
      by reflexivity.
    destruct ((contains line (lit "Log.d")
               || contains line (lit "android.util.Log.d"))
              && is_log_statement re_match_LOG strip line) eqn:E1.
    + rewrite decide_False by (rewrite Hr; discriminate).
      rewrite IH. f_equal. unfold len. cbn [length]. lia.
    + destruct (contains line (lit "Log.")
                && contains_sensitive_data re_search_IP re_search_IPV6
                     re_search_hash re_finditer_DOMAIN lower line) eqn:E2.
      * rewrite decide_False by (rewrite Hr; discriminate).
        rewrite IH. f_equal. unfold len. cbn [length]. lia.
      * rewrite decide_True by (rewrite Hr; reflexivity).
        rewrite IH, <- app_assoc. f_equal. unfold len. cbn [length]. lia.
Qed.

(** C10. The cleaner deletes whole lines only, and only lines in which
    "Log." occurs: the lines it keeps are a subsequence of the lines
    read, in their order; every line in which "Log." does not occur is
    kept as it is; and what [clean_file] writes back, when it writes,
    is those lines. *)
Theorem clean_deletes_only_log_lines (lines : list text) :
  (clean_loop' lines [] 0).1 `sublist_of` lines /\
  filter (fun line => contains line (lit "Log.") = false)
         (clean_loop' lines [] 0).1
  = filter (fun line => contains line (lit "Log.") = false) lines /\
  (clean_loop' lines [] 0).2
  = (len lines - len (clean_loop' lines [] 0).1)%Z /\
  (forall print_line file_path writelines out,
     WriteLines file_path out
       ∈ (clean_file re_search_IP re_search_IPV6 re_search_hash
            re_finditer_DOMAIN re_match_LOG lower strip print_line
            file_path (Ok lines) writelines).1 ->
     out = (clean_loop' lines [] 0).1).
Proof.
  rewrite clean_loop_filter. cbn [fst snd app].
  split; [apply sublist_filter|]. split; [|split; [lia|]].
  - rewrite list_filter_filter. apply list_filter_iff. intros line.
    split; [tauto|]. intros H. split; [exact H|].
    destruct (removes' line) eqn:E; [|reflexivity].
    apply removes_has_log in E. congruence.
  - intros print_line file_path writelines out. unfold clean_file, say.
    rewrite clean_loop_filter. cbn [app].
    destruct (_ >? 0)%Z; [|solve_elem].
    destruct (writelines _) as [[]|e1];
      [destruct (print_line (Removed _ _)) as [[]|e2];
       [|destruct (is_Exception e2);
         [destruct (print_line (ErrorWriting _ _))|]]
      |destruct (is_Exception e1);
       [destruct (print_line (ErrorWriting _ _))|]];
      cbn [fst]; solve_elem.
Qed.

End CleanLogsProperties.

(** The loop on three lines, with a [LOG_PATTERN] that matches every
    line and searches that find nothing: only the [Log.d] line goes. *)
Example clean_three_lines :
  clean_loop (fun _ => false) (fun _ => false) (fun _ => false)
    (fun _ => []) (fun _ => true) (fun s => s) (fun s => s)
    [lit "val d = catalog.data"; lit "  Log.d(TAG, msg)";
     lit "Log.i(TAG, started)"] [] 0
  = ([lit "val d = catalog.data"; lit "Log.i(TAG, started)"], 1%Z).
Proof. reflexivity. Qed.

(** * Further properties *)

(** ** The decoder: size and composition *)

Lemma findall_hex_unfold (c0 c1 h1 h2 : ascii) (rest : text) :
  findall_hex (c0 :: c1 :: h1 :: h2 :: rest)
  = if Ascii.eqb c0 "\" && Ascii.eqb c1 "x"
       && in_hex_class h1 && in_hex_class h2
    then [h1; h2] :: findall_hex rest
    else findall_hex (c1 :: h1 :: h2 :: rest).
Proof. reflexivity. Qed.

Lemma findall_hex_length (content : text) :
  4 * length (findall_hex content) <= length content.
Proof.
  remember (length content) as n eqn:Hn. revert content Hn.
  induction n as [n IH] using lt_wf_ind. intros content ->.
  destruct content as [|c0 rest]; [simpl; lia|].
  assert (Hrest : 4 * length (findall_hex rest) <= length rest).
  { apply (IH (length rest)); [simpl; lia | reflexivity]. }
  destruct rest as [|c1 [|h1 [|h2 rest']]];
    try (cbn [findall_hex length] in *; lia).
  rewrite findall_hex_unfold.
  destruct (Ascii.eqb c0 "\" && Ascii.eqb c1 "x"
            && in_hex_class h1 && in_hex_class h2).
  - pose proof (IH (length rest') ltac:(simpl; lia) rest' eq_refl).
    cbn [length]. lia.
  - cbn [length] in *. lia.
Qed.

Lemma comprehension_length {A B} (f : A -> result B) (xs : list A)
    (ys : list B) :
  comprehension f xs = Ok ys -> length ys = length xs.
Proof.
  revert ys. induction xs as [|x xs IH]; intros ys; cbn [comprehension].
  - intros [= <-]. reflexivity.
  - destruct (f x) as [y|e]; cbn [mbind result_bind]; [|discriminate].
    destruct (comprehension f xs) as [ys'|e]; cbn [mbind result_bind];
      [|discriminate].
    intros [= <-]. cbn [length]. rewrite (IH ys' eq_refl). reflexivity.
Qed.

Lemma bytes_length (ints : list Z) (data : list byte) :
  bytes ints = Ok data -> length data = length ints.
Proof.
  revert data. induction ints as [|n ints IH]; intros data; cbn [bytes].
  - intros [= <-]. reflexivity.
  - destruct (if (n <? 0)%Z then None else Byte.of_N (Z.to_N n));
      [|discriminate].
    destruct (bytes ints) as [bs|e]; cbn [mbind result_bind]; [|discriminate].
    intros [= <-]. cbn [length]. rewrite (IH bs eq_refl). reflexivity.
Qed.

(** X1. The decoder yields at most one byte for every four characters of
    its input. *)
Theorem decode_size_bound (content : text) (data : list byte) :
  extract_hex_strings content = Ok data ->
  (4 * len data <= len content)%Z.
Proof.
  unfold extract_hex_strings. cbn zeta. intros H.
  destruct (comprehension _ (findall_hex content)) as [ints|e] eqn:E;
    cbn [mbind result_bind] in H; [|discriminate].
  apply bytes_length in H. apply comprehension_length in E.
  pose proof (findall_hex_length content). unfold len. lia.
Qed.

Lemma decode_size_bound_witness :
  (4 * len [x00; x02]%byte <= len (lit "'\x00' '\x02', \x1"))%Z.
Proof.
  apply (decode_size_bound (lit "'\x00' '\x02', \x1")). reflexivity.
Defined.

Lemma findall_hex_gap (gap rest : text) :
  Forall (fun c => c <> "\") gap ->
  findall_hex (gap ++ rest) = findall_hex rest.
Proof.
  induction 1 as [|c gap Hc _ IH]; [reflexivity|].
  cbn [app]. rewrite findall_hex_skip; [exact IH|].
  destruct (Ascii.eqb_spec c "\"); [contradiction | reflexivity].
Qed.

(** X2. The decoder works token by token: after any text without a
    backslash, an escape of two hexadecimal digits, in either case, gives
    the byte of that value, followed by what the rest of the text
    decodes to. *)
Theorem decode_gap_then_token (gap rest : text) (h1 h2 : ascii) (d1 d2 : Z)
    (data : list byte) :
  Forall (fun c => c <> "\") gap ->
  hexadecimal_value h1 = Some d1 ->
  hexadecimal_value h2 = Some d2 ->
  extract_hex_strings rest = Ok data ->
  exists b, int_of_byte b = (16 * d1 + d2)%Z /\
            extract_hex_strings (gap ++ "\" :: "x" :: h1 :: h2 :: rest)
            = Ok (b :: data).
Proof.
  intros Hgap V1 V2 Hrest.
  pose proof (hexadecimal_value_range _ _ V1) as R1.
  pose proof (hexadecimal_value_range _ _ V2) as R2.
  rewrite hexadecimal_value_class in V1, V2.
  destruct (in_hex_class h1) eqn:C1; [|discriminate].
  destruct (in_hex_class h2) eqn:C2; [|discriminate].
  unfold extract_hex_strings in *. cbn zeta in *.
  rewrite findall_hex_gap by exact Hgap.
  rewrite findall_hex_unfold. change (Ascii.eqb "\" "\") with true.
  change (Ascii.eqb "x" "x") with true. rewrite C1, C2. cbn [andb].
  cbn [comprehension]. rewrite (int_two_digits h1 h2 d1 d2 V1 V2).
  cbn [mbind result_bind].
  destruct (comprehension _ (findall_hex rest)) as [ints|e];
    cbn [mbind result_bind] in *; [|discriminate].
  cbn [bytes]. destruct (Z.ltb_spec (16 * d1 + d2) 0) as [|_]; [lia|].
  destruct (Byte.of_N (Z.to_N (16 * d1 + d2))) as [b|] eqn:Hb.
  - exists b. split.
    + apply Byte.to_of_N in Hb. unfold int_of_byte. lia.
    + rewrite Hrest. reflexivity.
  - apply Byte.of_N_None_iff in Hb. lia.
Qed.

Lemma decode_gap_then_token_witness :
  exists b, int_of_byte b = (16 * 10 + 11)%Z /\
            extract_hex_strings
              (lit ", '" ++ "\" :: "x" :: "A" :: "b" :: lit "\x01'")
            = Ok [b; x01%byte].
Proof.
  apply (decode_gap_then_token (lit ", '") (lit "\x01'") "A" "b" 10 11
           [x01%byte]).
  - repeat constructor; discriminate.
  - reflexivity.
  - reflexivity.
  - reflexivity.
Defined.

(** ** The locator: the shape of what it accepts *)

Lemma depth_app (a b : text) : depth (a ++ b) = (depth a + depth b)%Z.
Proof.
  induction a as [|c a IH]; [rewrite depth_nil; reflexivity|].
  cbn [app]. rewrite !depth_cons, IH. lia.
Qed.

Lemma brace_step_bounds (c : ascii) : (-1 <= brace_step c <= 1)%Z.
Proof.
  unfold brace_step. destruct (Ascii.eqb c "{"), (Ascii.eqb c "}"); lia.
Qed.

(** A counter that is never 0 on the prefixes of a text stays
    positive. *)
Lemma depth_prefix_positive (l : text) :
  (forall j, j <= length l -> (1 + depth (take j l))%Z <> 0%Z) ->
  forall j, (0 < 1 + depth (take j l))%Z.
Proof.
  intros Hnz.
  assert (Hle : forall j, j <= length l -> (0 < 1 + depth (take j l))%Z).
  { induction j as [|j IH]; intros Hj.
    - rewrite take_0, depth_nil. lia.
    - destruct (lookup_lt_is_Some_2 l j ltac:(lia)) as [c Hc].
      rewrite (take_S_r _ _ _ Hc), depth_app, depth_cons, depth_nil.
      pose proof (brace_step_bounds c). pose proof (IH ltac:(lia)).
      pose proof (Hnz (S j) Hj) as Hn.
      rewrite (take_S_r _ _ _ Hc), depth_app, depth_cons, depth_nil in Hn.
      lia. }
  intros j. destruct (decide (j <= length l)) as [Hj|Hj]; [auto|].
  rewrite take_ge by lia. rewrite <- (take_ge l (length l)) by lia.
  apply Hle. lia.
Qed.

(** The loop runs through a text on which the counter stays positive. *)
Lemma brace_loop_positive (l r : text) (i : nat) (brace_count : Z)
    (brace_end : nat) :
  (forall k, 0 < brace_count + depth (take k l))%Z ->
  brace_loop (l ++ r) i brace_count brace_end
  = brace_loop r (i + length l) (brace_count + depth l)%Z brace_end.
Proof.
  revert i brace_count. induction l as [|c l IH]; intros i bc H.
  - cbn [app length]. rewrite depth_nil. f_equal; lia.
  - pose proof (H 1) as H1. cbn [take] in H1.
    rewrite take_0, depth_cons, depth_nil in H1.
    assert (Hnext : brace_loop ((c :: l) ++ r) i bc brace_end
                    = brace_loop (l ++ r) (S i) (bc + brace_step c)%Z
                        brace_end).
    { cbn [app brace_loop]. unfold brace_step in *.
      destruct (Ascii.eqb c "{"); [reflexivity|].
      destruct (Ascii.eqb c "}").
      - destruct (Z.eqb_spec (bc - 1) 0); [lia | reflexivity].
      - f_equal. lia. }
    rewrite Hnext, IH.
    + rewrite depth_cons. f_equal; cbn [length]; lia.
    + intros k. specialize (H (S k)). cbn [take] in H.
      rewrite depth_cons in H. lia.
Qed.

(** The locator returns a balanced body that the declaration encloses
    in braces. *)
Lemma extract_array_balanced (needle pre mid body post : text) :
  find (pre ++ needle ++ mid ++ "{" :: body ++ "}" :: post) needle 0
    = Some (length pre) ->
  Forall (fun c => c <> "{") (needle ++ mid) ->
  depth body = 0%Z ->
  (forall k, 0 <= depth (take k body))%Z ->
  extract_array needle (pre ++ needle ++ mid ++ "{" :: body ++ "}" :: post)
  = Ok body.
Proof.
  intros Hfind Hmid Hzero Hpos.
  rewrite (extract_array_skip_prefix needle pre _ Hfind).
  unfold extract_array.
  rewrite find_0, find_in_here by (apply startswith_spec; eauto).
  rewrite app_assoc, find_0, (find_in_brace_first _ _ 0 Hmid).
  cbn [Nat.add]. rewrite drop_app_length.
  cbn [brace_loop]. change (Ascii.eqb "{" "{") with true. cbv iota.
  rewrite (brace_loop_positive body)
    by (intros k; specialize (Hpos k); lia).
  rewrite Hzero.
  cbn [brace_loop]. change (Ascii.eqb "}" "{") with false.
  change (Ascii.eqb "}" "}") with true. cbv iota.
  change (0 + 1 + 0 - 1 =? 0)%Z with true. cbv iota.
  change (negb (0 + 1 + 0 - 1 =? 0)%Z) with false. cbv iota.
  f_equal. unfold slice.
  replace (length (needle ++ mid) + 1) with (length ((needle ++ mid) ++ ["{"]))
    by (rewrite !length_app; reflexivity).
  replace ((needle ++ mid) ++ "{" :: body ++ "}" :: post)
    with (((needle ++ mid) ++ ["{"]) ++ body ++ "}" :: post)
    by (rewrite <- !app_assoc; reflexivity).
  rewrite drop_app_length.
  replace (S (length (needle ++ mid)) + length body
           - length ((needle ++ mid) ++ ["{"])) with (length body)
    by (rewrite !length_app; cbn [length]; lia).
  apply take_app_length.
Qed.

Lemma extract_array_shape (needle content literal : text) :
  Forall (fun c => c <> "{") needle ->
  extract_array needle content = Ok literal ->
  exists pre mid post,
    content = pre ++ needle ++ mid ++ "{" :: literal ++ "}" :: post /\
    first_occurrence needle content 0 (length pre) /\
    Forall (fun c => c <> "{") mid /\
    depth literal = 0%Z /\
    forall k, (0 <= depth (take k literal))%Z.
Proof.
  intros Hneedle H.
  pose proof (extract_array_cases needle content) as Hc.
  destruct (find content needle 0) as [p|] eqn:Ep; [|congruence].
  destruct (find content (lit "{") p) as [q|] eqn:Eq; [|congruence].
  destruct Hc as [(e & Hclose & Hche & He)|(_ & He)]; [|congruence].
  rewrite He in H. injection H as <-.
  apply find_Some in Ep. apply find_Some in Eq.
  destruct Ep as (Hp0 & Hocc & Hfirst).
  destruct Eq as (Hpq & Hq & Hnobrace).
  apply occurs_at_brace_lookup in Hq.
  assert (Hno : forall j, p <= j < q -> content !! j <> Some "{").
  { intros j Hj Hx. apply (Hnobrace j Hj).
    apply occurs_at_brace_lookup. exact Hx. }
  pose proof Hocc as (pre & s1 & Hcontent & Hpre).
  assert (Hq' : p + length needle <= q).
  { destruct (decide (p + length needle <= q)) as [|Hn]; [assumption|].
    exfalso. rewrite Hcontent in Hq.
    rewrite lookup_app_r in Hq by lia.
    rewrite lookup_app_l in Hq by lia.
    rewrite Forall_lookup in Hneedle.
    exact (Hneedle _ _ Hq eq_refl). }
  destruct Hclose as (Hqe & Hzero & Hnz).
  assert (Hlt : q < e).
  { destruct (decide (q = e)) as [->|]; [congruence | lia]. }
  set (m := q - (p + length needle)).
  assert (Hs1q : s1 !! m = Some "{").
  { rewrite Hcontent in Hq. rewrite lookup_app_r in Hq by lia.
    rewrite lookup_app_r in Hq by lia.
    replace (q - length pre - length needle) with m in Hq by (unfold m; lia).
    exact Hq. }
  set (rest := drop (S m) s1).
  assert (Hs1 : s1 = take m s1 ++ "{" :: rest).
  { rewrite <- (take_drop m s1) at 1. f_equal. exact (drop_S _ _ _ Hs1q). }
  assert (Hlenm : length (take m s1) = m).
  { rewrite length_take. apply lookup_lt_Some in Hs1q. lia. }
  assert (Hdropq : drop q content = "{" :: rest).
  { rewrite Hcontent, Hs1.
    replace q with (length (pre ++ needle ++ take m s1))
      by (rewrite !length_app, Hlenm; unfold m; lia).
    replace (pre ++ needle ++ take m s1 ++ "{" :: rest)
      with ((pre ++ needle ++ take m s1) ++ "{" :: rest)
      by (rewrite <- !app_assoc; reflexivity).
    apply drop_app_length. }
  set (n := e - q - 1).
  assert (Hreste : rest !! n = Some "}").
  { rewrite <- (take_drop q content), Hdropq in Hche.
    rewrite lookup_app_r in Hche by (rewrite length_take; lia).
    rewrite length_take in Hche.
    replace (e - q `min` length content) with (S n) in Hche
      by (unfold n; lia).
    exact Hche. }
  assert (Hlit : slice content (q + 1) e = take n rest).
  { unfold slice. replace (q + 1) with (S q) by lia.
    replace (drop (S q) content) with rest.
    - f_equal. unfold n. lia.
    - replace (S q) with (q + 1) by lia.
      rewrite <- (drop_drop content 1 q). rewrite Hdropq.
      reflexivity. }
  assert (Hlenn : length (take n rest) = n).
  { rewrite length_take. apply lookup_lt_Some in Hreste. lia. }
  exists pre, (take m s1), (drop (S n) rest).
  rewrite Hlit. split; [|split; [|split; [|split]]].
  - rewrite Hcontent. f_equal. f_equal. rewrite Hs1 at 1. f_equal. f_equal.
    rewrite <- (take_drop n rest) at 1. f_equal.
    exact (drop_S _ _ _ Hreste).
  - rewrite Hpre. split; [exact Hp0|]. split; [exact Hocc | exact Hfirst].
  - apply Forall_lookup. intros j c Hj Hbrace. subst c.
    apply lookup_take_Some in Hj as [Hj Hjm].
    apply (Hno (p + length needle + j)); [unfold m in Hjm; lia|].
    rewrite Hcontent. rewrite lookup_app_r by lia.
    rewrite lookup_app_r by lia.
    replace (p + length needle + j - length pre - length needle) with j
      by lia.
    exact Hj.
  - rewrite (slice_from_brace content rest q e Hdropq) in Hzero by lia.
    replace (e - q) with (S n) in Hzero by (unfold n; lia).
    rewrite (take_S_r _ _ _ Hreste) in Hzero.
    rewrite depth_cons, depth_app, depth_cons, depth_nil in Hzero.
    change (brace_step "{") with 1%Z in Hzero.
    change (brace_step "}") with (-1)%Z in Hzero. lia.
  - intros k.
    enough (0 < 1 + depth (take k (take n rest)))%Z by lia.
    apply depth_prefix_positive. intros j Hj. rewrite Hlenn in Hj.
    rewrite take_take. replace (j `min` n) with j by lia.
    specialize (Hnz (q + j) ltac:(unfold n in Hj; lia)).
    rewrite (slice_from_brace content rest q (q + j) Hdropq) in Hnz by lia.
    replace (q + j - q) with j in Hnz by lia.
    rewrite depth_cons in Hnz. exact Hnz.
Qed.

(** X3. The locator returns [literal] exactly when the blob reads: some
    text, the first occurrence of the name with its bracket, text without
    an opening brace, [{], the literal, [}], any text; where the literal
    is balanced (as many [{] as [}], and no prefix with more [}] than
    [{]). *)
Theorem locate_accepts_balanced_initializer (content literal : text) :
  extract_checkpoint_array_from content = Ok literal <->
  exists pre mid post,
    content = pre ++ array_decl ++ mid ++ "{" :: literal ++ "}" :: post /\
    first_occurrence array_decl content 0 (length pre) /\
    Forall (fun c => c <> "{") mid /\
    depth literal = 0%Z /\
    forall k, (0 <= depth (take k literal))%Z.
Proof.
  assert (Hdecl : Forall (fun c => c <> "{") array_decl)
    by (repeat constructor; discriminate).
  unfold extract_checkpoint_array_from. split.
  - apply extract_array_shape. exact Hdecl.
  - intros (pre & mid & post & -> & Hfirst & Hmid & Hzero & Hpos).
    apply extract_array_balanced; try assumption.
    + apply find_Some. exact Hfirst.
    + apply Forall_app. split; assumption.
Qed.

(** ** The checks: what they read and what they report *)

Lemma height_lines_take (data data' : list byte) :
  take 4 data = take 4 data' -> height_lines data = height_lines data'.
Proof.
  destruct data as [|b0 [|b1 [|b2 [|b3 tail]]]];
    destruct data' as [|c0 [|c1 [|c2 [|c3 tail']]]];
    cbn [take]; try discriminate; try reflexivity.
  intros [= -> -> -> ->]. reflexivity.
Qed.

(** X4. The checks read the length of the byte sequence and its first
    four bytes, and nothing else: two byte sequences that agree on these
    get the same output. *)
Theorem validate_reads_length_and_height (data data' : list byte) :
  length data = length data' ->
  take 4 data = take 4 data' ->
  main_validate data = main_validate data'.
Proof.
  intros Hlen Htake. rewrite !main_validate_eq.
  rewrite (height_lines_take data data' Htake).
  unfold size_lines, len. rewrite Hlen. reflexivity.
Qed.

Lemma validate_reads_length_and_height_witness :
  main_validate [x00; x02; x13; x40; x01; x02]%byte
  = main_validate [x00; x02; x13; x40; xff; xfe]%byte.
Proof.
  apply validate_reads_length_and_height; reflexivity.
Defined.

Lemma validate_stderr_valid (data : list byte) :
  len data = 35436%Z -> big_endian (take 4 data) = 136000%Z ->
  printed stderr (main_validate data).1 = [].
Proof.
  intros Hlen Hh. rewrite main_validate_eq. cbn [fst].
  rewrite printed_app, printed_stderr_size, printed_stderr_height.
  apply Z.eqb_eq in Hlen as Hlenb. rewrite Hlenb.
  destruct data as [|b0 [|b1 [|b2 [|b3 tail]]]];
    try (unfold len in Hlen; cbn [length] in Hlen; lia).
  rewrite take_4 in Hh. apply Z.eqb_eq in Hh. rewrite Hh. reflexivity.
Qed.

(** X5. The checks leave the error stream empty exactly when the byte
    sequence has 35436 bytes and its first four bytes are the big-endian
    136000. *)
Theorem validate_silent_iff_valid (data : list byte) :
  printed stderr (main_validate data).1 = [] <->
  len data = 35436%Z /\ big_endian (take 4 data) = 136000%Z.
Proof.
  rewrite main_validate_eq. cbn [fst].
  rewrite printed_app, printed_stderr_size, printed_stderr_height.
  destruct (Z.eqb_spec (len data) 35436) as [Hlen|Hlen].
  - destruct data as [|b0 [|b1 [|b2 [|b3 tail]]]];
      try (unfold len in Hlen; cbn [length] in Hlen; lia).
    rewrite take_4. cbn [app].
    destruct (Z.eqb_spec (big_endian [b0; b1; b2; b3]) 136000) as [Hh|Hh].
    + split; [intros _; split; assumption | reflexivity].
    + split; [discriminate | intros [_ H]; contradiction].
  - split; [discriminate | intros [H _]; contradiction].
Qed.

(** ** The run of the generator *)

Lemma extract_hex_strings_total (content : text) :
  exists data, extract_hex_strings content = Ok data.
Proof.
  unfold extract_hex_strings. cbn zeta.
  rewrite findall_hex_tokens. cbn [mbind result_bind].
  destruct (bytes_in_range _ (tokens_range content)) as (data & H & _).
  eauto.
Qed.

Lemma extract_array_raises_exception (needle content : text) (e : exn) :
  extract_array needle content = Raise e -> is_Exception e = true.
Proof.
  unfold extract_array.
  destruct (find content needle 0) as [p|]; [|intros [= <-]; reflexivity].
  destruct (find content (lit "{") p) as [q|];
    [|intros [= <-]; reflexivity].
  destruct (brace_loop _ _ _ _) as [n e'].
  destruct (negb (n =? 0)%Z); [intros [= <-]; reflexivity | discriminate].
Qed.

Lemma io_bind_raise {A B} (t : list event) (e : exn) (k : A -> io B) :
  ((t, Raise e) ≫= k) = (t, Raise e).
Proof. reflexivity. Qed.

Lemma quiet_bind {A B} (m : io A) (k : A -> io B) :
  quiet m -> (forall a, quiet (k a)) -> quiet (m ≫= k).
Proof.
  intros [Hw He] Hk. destruct m as [t [a|e]]; cbn [fst snd] in *.
  - destruct (Hk a) as [Hw' He']. rewrite io_bind_ok. unfold quiet.
    cbn [fst snd]. rewrite written_app, Hw, Hw'. split; [reflexivity | exact He'].
  - rewrite io_bind_raise. unfold quiet. cbn [fst snd].
    split; [exact Hw|]. intros e' [= <-]. exact (He e eq_refl).
Qed.

Lemma quiet_print_on (out : console) (m : message) (f : stream) :
  (forall f m e, out f m = Raise e -> is_Exception e = true) ->
  quiet (print_on out m f).
Proof.
  intros H. unfold print_on, quiet.
  destruct (out f m) as [[]|e] eqn:E; cbn [fst snd].
  - split; [reflexivity | discriminate].
  - split; [reflexivity|]. intros e' [= <-]. exact (H _ _ _ E).
Qed.

Lemma quiet_getitem (b : list byte) (i : nat) : quiet (lift (getitem b i)).
Proof.
  unfold quiet, lift, getitem. cbn [fst snd]. split; [reflexivity|].
  destruct (b !! i); [discriminate | intros e [= <-]; reflexivity].
Qed.

(** The checks write no file, and what ends them early is an exception
    of a stream. *)
Lemma quiet_validate (out : console) (data : list byte) :
  (forall f m e, out f m = Raise e -> is_Exception e = true) ->
  quiet (main_validate_with (print_on out) data).
Proof.
  intros H. unfold main_validate_with. cbn zeta.
  repeat first
    [ apply quiet_print_on; exact H
    | apply quiet_getitem
    | apply quiet_bind; [|intros ?]
    | match goal with
      | |- quiet (if ?c then _ else _) => destruct c
      end
    | (split; [reflexivity | discriminate]) ].
Qed.

(** The steps that write the artifact, by their first failure: a failure
    after the file is written is one of the two prints that follow. *)
Lemma main_write_cases (fs : filesystem) (out : console) (output_file : path)
    (data : list byte) :
  raises_exceptions fs out ->
  ((main_write fs out output_file data).2 = Ok tt /\
   written (main_write fs out output_file data).1 = [(output_file, data)])
  \/
  (exists e,
     (main_write fs out output_file data).2 = Raise e /\
     is_Exception e = true /\
     (written (main_write fs out output_file data).1 = [] \/
      (written (main_write fs out output_file data).1
         = [(output_file, data)] /\
       (out stdout (MsgWrote output_file) <> Ok tt \/
        out stdout (MsgFileSize (len data)) <> Ok tt)))).
Proof.
  intros (_ & Hmkdir & Hwrite & Hout).
  unfold main_write, mkdir, open_write, print_on.
  destruct (mkdir_parents fs (parent output_file)) as [[]|e] eqn:Em.
  2:{ right. exists e. rewrite io_bind_raise. cbn [fst snd].
      split; [reflexivity|]. split; [exact (Hmkdir _ _ Em)|].
      left. reflexivity. }
  rewrite io_bind_ok.
  destruct (write_bytes fs output_file data) as [[]|e] eqn:Ew.
  2:{ right. exists e. rewrite io_bind_raise. cbn [fst snd].
      split; [reflexivity|]. split; [exact (Hwrite _ _ _ Ew)|].
      left. reflexivity. }
  rewrite io_bind_ok.
  destruct (out stdout (MsgWrote output_file)) as [[]|e] eqn:E1.
  2:{ right. exists e. rewrite io_bind_raise. cbn [fst snd].
      split; [reflexivity|]. split; [exact (Hout _ _ _ E1)|].
      right. split; [reflexivity|]. left. discriminate. }
  rewrite io_bind_ok.
  destruct (out stdout (MsgFileSize (len data))) as [[]|e] eqn:E2.
  2:{ right. exists e. cbn [fst snd].
      split; [reflexivity|]. split; [exact (Hout _ _ _ E2)|].
      right. split; [reflexivity|]. right. discriminate. }
  left. split; reflexivity.
Qed.

(** The body of the [try], by its first failure. *)
Lemma main_body_cases (fs : filesystem) (out : console)
    (input_file output_file : path) :
  raises_exceptions fs out ->
  let body : io unit :=
    array_content ← lift (extract_checkpoint_array fs input_file);
    checkpoint_data ← lift (extract_hex_strings array_content);
    main_validate_with (print_on out) checkpoint_data;;
    main_write fs out output_file checkpoint_data in
  (body.2 = Ok tt /\ exists data, written body.1 = [(output_file, data)]) \/
  (exists e,
     body.2 = Raise e /\ is_Exception e = true /\
     (written body.1 = [] \/
      exists data,
        written body.1 = [(output_file, data)] /\
        (out stdout (MsgWrote output_file) <> Ok tt \/
         out stdout (MsgFileSize (len data)) <> Ok tt))).
Proof.
  intros Hfs. pose proof Hfs as (Hread & _ & _ & Hout). cbn zeta.
  unfold extract_checkpoint_array.
  destruct (read_text fs input_file) as [content|e] eqn:Er.
  2:{ right. exists e. cbn [mbind result_bind]. unfold lift.
      rewrite io_bind_raise. cbn [fst snd].
      split; [reflexivity|]. split; [exact (Hread _ _ Er)|].
      left. reflexivity. }
  cbn [mbind result_bind].
  destruct (extract_checkpoint_array_from content) as [array_content|e]
    eqn:El.
  2:{ right. exists e. unfold lift. rewrite io_bind_raise. cbn [fst snd].
      split; [reflexivity|].
      split; [exact (extract_array_raises_exception _ _ _ El)|].
      left. reflexivity. }
  destruct (extract_hex_strings_total array_content) as [data Hd].
  rewrite io_bind_lift, Hd, io_bind_lift.
  destruct (quiet_validate out data Hout) as [Hvw Hve].
  destruct (main_validate_with (print_on out) data) as [t [[]|e]];
    cbn [fst snd] in *.
  2:{ right. exists e. rewrite io_bind_raise. cbn [fst snd].
      split; [reflexivity|]. split; [exact (Hve e eq_refl)|].
      left. exact Hvw. }
  rewrite io_bind_ok. cbn [fst snd]. rewrite written_app, Hvw. cbn [app].
  destruct (main_write_cases fs out output_file data Hfs)
    as [(Hok & Hw)|(e & Hr & He & Hw)].
  - left. split; [exact Hok|]. exists data. exact Hw.
  - right. exists e. split; [exact Hr|]. split; [exact He|].
    destruct Hw as [Hw|Hw]; [left; exact Hw | right; exists data; exact Hw].
Qed.

(** The handler of the [try], on an error stream that takes its line. *)
Lemma try_except_exits (out : console) (body : io unit) (e : exn) :
  out stderr (MsgError e) = Ok tt ->
  body.2 = Raise e -> is_Exception e = true ->
  try_except body (fun e => print_on out (MsgError e) stderr;; sys_exit 1)
  = (body.1 ++ [Print stderr (MsgError e)], Raise (SystemExit 1)).
Proof.
  intros Ho Hr He. destruct body as [t r]. cbn [fst snd] in *. subst r.
  unfold try_except. rewrite He, (print_on_accepted _ _ _ Ho).
  reflexivity.
Qed.

Lemma try_except_returns (body handler_result : io unit)
    (handler : exn -> io unit) :
  body.2 = Ok tt -> try_except body handler = body.
Proof.
  destruct body as [t r]. cbn [fst snd]. intros ->. reflexivity.
Qed.

(** X6. Whatever the arguments and the files, when the test for the
    input file returns, the streams take the line that names the input
    and the lines that report a fatal error, and the collaborators and
    the streams raise exceptions proper only: a run of the generator
    either returns having written exactly one file, at the output path,
    or exits with status 1, its last line on the error stream being the
    error report. When it exits it has written nothing, unless the file
    was written and one of the two prints that follow the write failed:
    then the file at the output path is written and the status is 1. *)
Theorem main_writes_or_exits_1 (fs : filesystem) (out : console)
    (project_root : path) (argv : list path) :
  raises_exceptions fs out ->
  (exists found, exists_ fs (input_file_of project_root argv) = Ok found) ->
  out stdout (MsgReading (input_file_of project_root argv)) = Ok tt ->
  (forall m, is_error_line m = true -> out stderr m = Ok tt) ->
  ((main fs out project_root argv).2 = Ok tt /\
   exists data,
     written (main fs out project_root argv).1
       = [(output_file_of project_root argv, data)])
  \/
  ((main fs out project_root argv).2 = Raise (SystemExit 1) /\
   (written (main fs out project_root argv).1 = [] \/
    exists data,
      written (main fs out project_root argv).1
        = [(output_file_of project_root argv, data)] /\
      (out stdout (MsgWrote (output_file_of project_root argv)) <> Ok tt \/
       out stdout (MsgFileSize (len data)) <> Ok tt)) /\
   exists m,
     last (printed stderr (main fs out project_root argv).1) = Some m /\
     is_error_line m = true).
Proof.
  intros Hfs [found He] Hreading Herr. unfold main. cbv zeta.
  rewrite He, io_bind_lift.
  destruct found; cbn [negb].
  2:{ right.
      rewrite (print_on_accepted out (MsgInputNotFound _) stderr)
        by (apply Herr; reflexivity).
      cbn. split; [reflexivity|]. split; [left; reflexivity|].
      eexists. split; reflexivity. }
  rewrite io_bind_ret, (print_on_accepted _ _ _ Hreading), io_bind_print.
  pose proof (main_body_cases fs out (input_file_of project_root argv)
                (output_file_of project_root argv) Hfs) as Hbody.
  cbv zeta in Hbody.
  match type of Hbody with
  | context [written (fst ?b)] => set (body := b) in *
  end.
  destruct Hbody as [(Hok & data & Hw)|(e & Hr & Hex & Hw)].
  - left. rewrite (try_except_returns body body _ Hok). cbn [fst snd].
    split; [exact Hok|]. exists data. exact Hw.
  - right.
    rewrite (try_except_exits out body e (Herr (MsgError e) eq_refl) Hr Hex).
    cbn [fst snd]. split; [reflexivity|].
    change (written (Print stdout ?m :: ?t)) with (written t).
    change (printed stderr (Print stdout ?m :: ?t)) with (printed stderr t).
    rewrite written_app, printed_app.
    change (written [Print stderr (MsgError e)]) with (@nil (path * list byte)).
    change (printed stderr [Print stderr (MsgError e)]) with [MsgError e].
    rewrite app_nil_r. split; [exact Hw|].
    exists (MsgError e). split; [apply last_snoc | reflexivity].
Qed.

(** A header whose height passes, on streams that cannot encode the
    check mark: the run exits with status 1 and has written nothing. *)
Lemma main_writes_or_exits_1_witness :
  (main (fs_holding header_nested) ascii_console sample_root
     [sample_script; sample_input; sample_output]).2
    = Raise (SystemExit 1) /\
  written (main (fs_holding header_nested) ascii_console sample_root
             [sample_script; sample_input; sample_output]).1 = [].
Proof.
  assert (Hfs : raises_exceptions (fs_holding header_nested) ascii_console).
  { repeat split; try (intros; discriminate).
    intros f m e. unfold ascii_console.
    destruct (is_check_mark m); [intros [= <-]; reflexivity | discriminate]. }
  destruct (main_writes_or_exits_1 (fs_holding header_nested) ascii_console
              sample_root [sample_script; sample_input; sample_output]
              Hfs (ex_intro _ true eq_refl) eq_refl)
    as [(Hok & _)|(Hexit & _ & _)].
  - intros m Hm. destruct m; try discriminate Hm; reflexivity.
  - discriminate Hok.
  - split; [exact Hexit | reflexivity].
Defined.

(** The file is written and the status is 1: the stream fails on the
    line that follows the write. *)
Example main_write_then_exit :
  let out : console := fun _ m =>
    match m with
    | MsgWrote _ => Raise (OSError "Broken pipe")
    | _ => Ok tt
    end in
  (main (fs_holding header_nested) out sample_root
     [sample_script; sample_input; sample_output]).2
    = Raise (SystemExit 1) /\
  written (main (fs_holding header_nested) out sample_root
             [sample_script; sample_input; sample_output]).1
    = [(sample_output, [x00; x02; x13; x40]%byte)].
Proof. split; reflexivity. Qed.

(** X7. End to end: on a header that declares the array with the bytes
    of [data] as [\xNN] escapes, the collaborators not failing and the
    streams taking every line, the generator returns having written
    exactly [data] to the output path, whatever its arguments; and when
    [data] has 35436 bytes that start with the big-endian 136000, it
    prints nothing on the error stream. *)
Theorem main_writes_encoded_checkpoint (fs : filesystem) (out : console)
    (project_root : path) (argv : list path) (data : list byte) :
  exists_ fs (input_file_of project_root argv) = Ok true ->
  read_text fs (input_file_of project_root argv)
    = Ok (encode_checkpoint data) ->
  mkdir_parents fs (parent (output_file_of project_root argv)) = Ok tt ->
  write_bytes fs (output_file_of project_root argv) data = Ok tt ->
  (forall f m, out f m = Ok tt) ->
  (main fs out project_root argv).2 = Ok tt /\
  written (main fs out project_root argv).1
    = [(output_file_of project_root argv, data)] /\
  (len data = 35436%Z -> big_endian (take 4 data) = 136000%Z ->
   printed stderr (main fs out project_root argv).1 = []).
Proof.
  intros He Hr Hm Hw Hout.
  rewrite (main_eq fs out project_root argv
             (encode_checkpoint data) (encode_literal data) data
             He Hr (locate_encode_checkpoint data)
             (decode_encode_literal data) (Hout _ _)
             (fun f m _ => Hout f m) (Hout _ _) (Hout _ _) Hm Hw).
  cbn [fst snd]. split; [reflexivity|]. split.
  - change (written (?e :: ?t)) with (written t).
    rewrite written_app, written_validate. reflexivity.
  - intros Hlen Hheight.
    change (printed stderr (Print stdout ?m :: ?t)) with (printed stderr t).
    rewrite printed_app.
    rewrite (validate_stderr_valid data Hlen Hheight).
    reflexivity.
Qed.

Lemma main_writes_encoded_checkpoint_witness :
  (main (fs_holding (encode_checkpoint [x00; x02; x13; x40; x7f]%byte))
     unicode_console sample_root
     [sample_script; sample_input; sample_output]).2 = Ok tt /\
  written (main (fs_holding (encode_checkpoint [x00; x02; x13; x40; x7f]%byte))
             unicode_console sample_root
             [sample_script; sample_input; sample_output]).1
    = [(sample_output, [x00; x02; x13; x40; x7f]%byte)].
Proof.
  pose proof (main_writes_encoded_checkpoint
                (fs_holding (encode_checkpoint [x00; x02; x13; x40; x7f]%byte))
                unicode_console sample_root
                [sample_script; sample_input; sample_output]
                [x00; x02; x13; x40; x7f]%byte
                eq_refl eq_refl eq_refl eq_refl (fun _ _ => eq_refl))
    as (Hok & Hw & _).
  split; [exact Hok | exact Hw].
Defined.

(** ** The cleaner: what it keeps, what it writes, what it counts *)

Lemma split_char_length (sep : ascii) (s : text) :
  length (split_char sep s) = S (count_char sep s).
Proof.
  unfold count_char. induction s as [|c s IH]; [reflexivity|].
  cbn [split_char]. rewrite filter_cons.
  destruct (Ascii.eqb_spec c sep) as [E|E].
  - rewrite decide_True by exact E. cbn [length]. rewrite IH. reflexivity.
  - rewrite decide_False by exact E.
    destruct (split_char sep s) as [|part parts]; [discriminate IH|].
    exact IH.
Qed.

Lemma count_char_pos (sep : ascii) (s : text) :
  1 <= count_char sep s <-> sep ∈ s.
Proof.
  unfold count_char. induction s as [|c s IH].
  - cbn. rewrite elem_of_nil. lia.
  - rewrite filter_cons, elem_of_cons. destruct (decide (c = sep)) as [->|E].
    + cbn [length]. split; [auto | lia].
    + rewrite IH. split; [auto|]. intros [H|H]; [congruence | exact H].
Qed.

Section CleanerProperties.

Variable re_search_IP re_search_IPV6 re_search_hash : text -> bool.
Variable re_finditer_DOMAIN : text -> list text.
Variable re_match_LOG : text -> bool.
Variable lower strip : text -> text.
Variable print_line : clean_event -> result unit.

Local Abbreviation removes' :=
  (removes re_search_IP re_search_IPV6 re_search_hash re_finditer_DOMAIN
     re_match_LOG lower strip).
Local Abbreviation clean_loop' :=
  (clean_loop re_search_IP re_search_IPV6 re_search_hash re_finditer_DOMAIN
     re_match_LOG lower strip).
Local Abbreviation clean_file' :=
  (clean_file re_search_IP re_search_IPV6 re_search_hash re_finditer_DOMAIN
     re_match_LOG lower strip print_line).
Local Abbreviation kept lines :=
  (filter (fun line => removes' line = false) lines).

Lemma clean_loop_kept (lines : list text) :
  clean_loop' lines [] 0
  = (kept lines, (len lines - len (kept lines))%Z).
Proof.
  rewrite (clean_loop_filter re_search_IP re_search_IPV6 re_search_hash
             re_finditer_DOMAIN re_match_LOG lower strip).
  cbn [app]. f_equal.
Qed.

(** X8. A line is among the lines kept exactly when it was read and
    neither test of the loop drops it: it is not a [Log.d] statement, and
    it is not a line with "Log." that holds sensitive data. *)
Theorem clean_keeps_exactly (lines : list text) (line : text) :
  line ∈ (clean_loop' lines [] 0).1 <->
  line ∈ lines /\
  (contains line (lit "Log.d") || contains line (lit "android.util.Log.d"))
  && is_log_statement re_match_LOG strip line = false /\
  contains line (lit "Log.")
  && contains_sensitive_data re_search_IP re_search_IPV6 re_search_hash
       re_finditer_DOMAIN lower line = false.
Proof.
  rewrite clean_loop_kept. cbn [fst]. rewrite list_elem_of_filter.
  unfold removes. rewrite orb_false_iff. tauto.
Qed.

(** X9. Cleaning is idempotent: on the lines it kept, the loop keeps
    every line and counts no removal, and [clean_file] writes nothing and
    returns [False]. *)
Theorem clean_twice (lines : list text) (file_path : path)
    (writelines : list text -> result unit) :
  clean_loop' (clean_loop' lines [] 0).1 [] 0
  = ((clean_loop' lines [] 0).1, 0%Z) /\
  clean_file' file_path (Ok (clean_loop' lines [] 0).1) writelines
  = ([], Ok false).
Proof.
  assert (H : clean_loop' (clean_loop' lines [] 0).1 [] 0
              = ((clean_loop' lines [] 0).1, 0%Z)).
  { rewrite (clean_loop_kept lines). cbn [fst]. rewrite clean_loop_kept.
    assert (kept (kept lines) = kept lines) as ->.
    { rewrite list_filter_filter. apply list_filter_iff. tauto. }
    f_equal. lia. }
  split; [exact H|]. unfold clean_file. rewrite H. reflexivity.
Qed.

(** The ways [clean_file] ends: without a write, or with the file
    rewritten, with the lines kept of the lines read; then the value is
    [True] when the stream takes the line of the success, and is not
    [True] when the stream does not. *)
Lemma clean_file_cases (file_path : path) (readlines : result (list text))
    (writelines : list text -> result unit) :
  ((clean_file' file_path readlines writelines).2 <> Ok true /\
   ((clean_file' file_path readlines writelines).1 = [] \/
    exists e,
      (clean_file' file_path readlines writelines).1
        = [ErrorReading file_path e] \/
      (clean_file' file_path readlines writelines).1
        = [ErrorWriting file_path e]) /\
   (forall lines,
      readlines = Ok lines -> (len (kept lines) < len lines)%Z ->
      writelines (kept lines) <> Ok tt))
  \/
  (exists lines,
     readlines = Ok lines /\ (len (kept lines) < len lines)%Z /\
     writelines (kept lines) = Ok tt /\
     ((print_line (Removed file_path (len lines - len (kept lines))) = Ok tt /\
       clean_file' file_path readlines writelines
       = ([WriteLines file_path (kept lines);
           Removed file_path (len lines - len (kept lines))], Ok true)) \/
      (print_line (Removed file_path (len lines - len (kept lines)))
         <> Ok tt /\
       (clean_file' file_path readlines writelines).2 <> Ok true /\
       ((clean_file' file_path readlines writelines).1
          = [WriteLines file_path (kept lines)] \/
        exists e,
          (clean_file' file_path readlines writelines).1
            = [WriteLines file_path (kept lines);
               ErrorWriting file_path e])))).
Proof.
  unfold clean_file, say. destruct readlines as [lines|e].
  2:{ left.
      destruct (is_Exception e);
        [destruct (print_line (ErrorReading file_path e)) as [[]|e']|];
        cbn [fst snd];
        (split; [discriminate|]);
        (split;
         [first [left; reflexivity | right; eexists; left; reflexivity]|]);
        intros l H; discriminate H. }
  rewrite clean_loop_kept.
  destruct (Z.gtb_spec (len lines - len (kept lines)) 0) as [Hgt|Hle].
  2:{ left. cbn [fst snd]. split; [discriminate|].
      split; [left; reflexivity|].
      intros l [= <-] Hlt. lia. }
  destruct (writelines (kept lines)) as [[]|e1] eqn:Ew.
  2:{ left.
      destruct (is_Exception e1);
        [destruct (print_line (ErrorWriting file_path e1)) as [[]|e']|];
        cbn [fst snd];
        (split; [discriminate|]);
        (split;
         [first [left; reflexivity | right; eexists; right; reflexivity]|]);
        intros l [= <-] _; rewrite Ew; discriminate. }
  right. exists lines. split; [reflexivity|]. split; [lia|].
  split; [exact Ew|].
  destruct (print_line (Removed file_path (len lines - len (kept lines))))
    as [[]|e2] eqn:Ep.
  - left. split; reflexivity.
  - right. split; [discriminate|].
    destruct (is_Exception e2);
      [destruct (print_line (ErrorWriting file_path e2)) as [[]|e']|];
      cbn [fst snd];
      (split; [discriminate|]);
      first [left; reflexivity | right; eexists; reflexivity].
Qed.

(** What the loop over the files needs of one file. *)
Lemma clean_file_summary (file_path : path) (readlines : result (list text))
    (writelines : list text -> result unit) :
  (((clean_file' file_path readlines writelines).2 = Ok true /\
    reported (clean_file' file_path readlines writelines).1 = [file_path] /\
    rewritten (clean_file' file_path readlines writelines).1 = [file_path])
   \/
   ((clean_file' file_path readlines writelines).2 <> Ok true /\
    reported (clean_file' file_path readlines writelines).1 = [] /\
    (rewritten (clean_file' file_path readlines writelines).1 = [] \/
     (rewritten (clean_file' file_path readlines writelines).1 = [file_path]
      /\ exists n, print_line (Removed file_path n) <> Ok tt)))) /\
  (forall p out,
     WriteLines p out ∈ (clean_file' file_path readlines writelines).1 ->
     p = file_path /\
     exists lines,
       readlines = Ok lines /\ out = kept lines /\ (len out < len lines)%Z).
Proof.
  destruct (clean_file_cases file_path readlines writelines)
    as [(Hne & Hev & _)
       |(lines & Hread & Hlt & _ & [(_ & ->)|(Hp & Hne & Hev)])].
  - split.
    + right. split; [exact Hne|].
      destruct Hev as [->|(e & [->| ->])]; split; try reflexivity;
        left; reflexivity.
    + intros p out.
      destruct Hev as [->|(e & [->| ->])]; solve_elem.
  - cbn [fst snd]. split; [left; repeat split|].
    intros p out H. rewrite !elem_of_cons, elem_of_nil in H.
    destruct H as [[= -> ->]|[H|[]]]; [|discriminate H].
    split; [reflexivity|]. exists lines. auto.
  - split.
    + right. split; [exact Hne|].
      destruct Hev as [->|(e & ->)]; (split; [reflexivity|]);
        right; (split; [reflexivity|]); eexists; exact Hp.
    + intros p out H.
      assert (H' : WriteLines p out = WriteLines file_path (kept lines)).
      { destruct Hev as [Hev|(e & Hev)]; rewrite Hev in H;
          rewrite !elem_of_cons, elem_of_nil in H;
          intuition discriminate. }
      injection H' as -> ->. split; [reflexivity|]. exists lines. auto.
Qed.

(** X10. [clean_file] returns [True] exactly when it printed the line of
    the success, and only when it rewrote the file; it can have rewritten
    the file and not return [True], when the print of that line, which
    follows the write, fails: on a stream that takes that line, it
    returns [True] exactly when it rewrote the file. It rewrites the file
    exactly when it read it, dropped a line and the write succeeded, and
    then with fewer lines than it read; a file of which no line is
    dropped is not written at all, and nothing is printed. *)
Theorem clean_file_writes_only_changes (file_path : path)
    (readlines : result (list text))
    (writelines : list text -> result unit) :
  ((clean_file' file_path readlines writelines).2 = Ok true <->
   reported (clean_file' file_path readlines writelines).1 = [file_path]) /\
  ((clean_file' file_path readlines writelines).2 = Ok true ->
   rewritten (clean_file' file_path readlines writelines).1 = [file_path]) /\
  ((forall n, print_line (Removed file_path n) = Ok tt) ->
   ((clean_file' file_path readlines writelines).2 = Ok true <->
    rewritten (clean_file' file_path readlines writelines).1 = [file_path]))
  /\
  (rewritten (clean_file' file_path readlines writelines).1 = [file_path] <->
   exists lines,
     readlines = Ok lines /\ (0 < (clean_loop' lines [] 0).2)%Z /\
     writelines (clean_loop' lines [] 0).1 = Ok tt) /\
  (forall out,
     WriteLines file_path out
       ∈ (clean_file' file_path readlines writelines).1 ->
     exists lines, readlines = Ok lines /\ (len out < len lines)%Z) /\
  (forall lines,
     readlines = Ok lines ->
     (forall line, line ∈ lines -> removes' line = false) ->
     clean_file' file_path readlines writelines = ([], Ok false)).
Proof.
  assert (Hkeep_all : forall lines : list text,
            (forall line, line ∈ lines -> removes' line = false) ->
            kept lines = lines).
  { induction lines as [|l ls IH]; intros Hall; [reflexivity|].
    rewrite filter_cons_True by (apply Hall; left).
    f_equal. apply IH. intros line Hl. apply Hall. right. exact Hl. }
  assert (Hlast : forall lines,
            readlines = Ok lines ->
            (forall line, line ∈ lines -> removes' line = false) ->
            clean_file' file_path readlines writelines = ([], Ok false)).
  { intros lines -> Hall. unfold clean_file.
    rewrite clean_loop_kept, (Hkeep_all lines Hall).
    rewrite Z.sub_diag. reflexivity. }
  assert (Hrew : rewritten (clean_file' file_path readlines writelines).1
                 = [file_path] <->
                 exists lines,
                   readlines = Ok lines /\ (len (kept lines) < len lines)%Z /\
                   writelines (kept lines) = Ok tt).
  { destruct (clean_file_cases file_path readlines writelines)
      as [(_ & Hev & Hno)
         |(lines & Hread & Hlt & Hw & [(_ & ->)|(_ & _ & Hev)])].
    - split.
      + destruct Hev as [->|(e & [->| ->])]; discriminate.
      + intros (lines & Hread & Hlt & Hw).
        destruct (Hno lines Hread Hlt Hw).
    - split; [eauto | reflexivity].
    - split; [eauto|]. intros _.
      destruct Hev as [->|(e & ->)]; reflexivity. }
  destruct (clean_file_summary file_path readlines writelines)
    as [Hsum Hout].
  split; [|split; [|split; [|split; [|split; [|exact Hlast]]]]].
  - destruct Hsum as [(-> & -> & _)|(Hne & -> & _)].
    + split; reflexivity.
    + split; [intros H; destruct (Hne H) | discriminate].
  - destruct Hsum as [(_ & _ & ->)|(Hne & _)];
      [reflexivity | intros H; destruct (Hne H)].
  - intros Hacc.
    destruct Hsum as [(-> & _ & ->)|(Hne & _ & [->|(_ & n & Hp)])].
    + split; reflexivity.
    + split; [intros H; destruct (Hne H) | discriminate].
    + destruct (Hp (Hacc n)).
  - rewrite Hrew. split; intros (lines & Hread & H1 & H2); exists lines;
      rewrite clean_loop_kept in *; cbn [fst snd] in *;
      (split; [exact Hread|]); (split; [lia | exact H2]).
  - intros out H. destruct (Hout _ _ H) as (_ & lines & Hread & _ & Hlt).
    eauto.
Qed.

(** The file is rewritten and the value is [False]: the stream cannot
    encode the line of the success. *)
Example clean_file_rewrites_and_returns_false :
  clean_file finds_nothing finds_nothing finds_nothing matches_nothing
    finds_nothing unchanged unchanged
    (fun line => echo sample_tree_ascii (FileEvent line))
    ["Main.kt"%string]
    (Ok [lit "fun f() {"; lit "  android.util.Log.d(TAG, msg)"; lit "}"])
    (fun _ => Ok tt)
  = ([WriteLines ["Main.kt"%string] [lit "fun f() {"; lit "}"];
      ErrorWriting ["Main.kt"%string]
        (ValueError "'ascii' codec can't encode character '\u2713'")],
     Ok false).
Proof. reflexivity. Qed.

(** X11. A line in which [android.util.Log.d] occurs anywhere is
    dropped, whatever the regular expressions answer. *)
Theorem clean_drops_qualified_debug_logs (lines : list text) (line : text) :
  contains line (lit "android.util.Log.d") = true ->
  line ∉ (clean_loop' lines [] 0).1.
Proof.
  intros H. rewrite clean_loop_kept. cbn [fst]. rewrite list_elem_of_filter.
  intros [Hkeep _]. unfold removes, is_log_statement in Hkeep.
  rewrite H in Hkeep. rewrite !orb_true_r in Hkeep. discriminate Hkeep.
Qed.

End CleanerProperties.

Lemma existsb_false_iff {A} (f : A -> bool) (l : list A) :
  existsb f l = false <-> forall x, x ∈ l -> f x = false.
Proof.
  induction l as [|a l IH]; cbn [existsb].
  - split; [intros _ x H; rewrite elem_of_nil in H; contradiction | auto].
  - rewrite orb_false_iff, IH. split.
    + intros [Ha Hl] x Hx. apply elem_of_cons in Hx as [->|Hx]; auto.
    + intros H. split; [apply H; left | intros x Hx; apply H; right; exact Hx].
Qed.

(** X12. The loop over the domain matches answers [True] exactly when
    some match, lowered and without its trailing dots, holds none of the
    excluded names and still has a dot. *)
Theorem domain_loop_finds_dotted_domain (lower : text -> text)
    (domain_matches : list text) :
  domain_loop lower domain_matches = true <->
  exists group0,
    group0 ∈ domain_matches /\
    (forall ex, ex ∈ EXCLUDED_DOMAINS ->
                contains (rstrip_char "." (lower group0)) ex = false) /\
    "." ∈ rstrip_char "." (lower group0).
Proof.
  induction domain_matches as [|g ms IH]; cbn [domain_loop].
  - split; [discriminate|]. intros (g & Hg & _).
    rewrite elem_of_nil in Hg. contradiction.
  - cbn zeta. set (domain := rstrip_char "." (lower g)).
    assert (Hparts : (len (split_char "." domain) >=? 2)%Z = true
                     <-> "." ∈ domain).
    { unfold len. rewrite split_char_length, <- count_char_pos.
      rewrite Z.geb_le. lia. }
    destruct (existsb (fun ex => contains domain ex) EXCLUDED_DOMAINS)
      eqn:Eex; cbn [negb].
    + rewrite IH. split.
      * intros (g' & Hg' & H). exists g'. split; [right; exact Hg' | exact H].
      * intros (g' & Hg' & Hex & Hdot).
        apply elem_of_cons in Hg' as [->|Hg']; [|eauto].
        exfalso. fold domain in Hex.
        assert (existsb (fun ex => contains domain ex) EXCLUDED_DOMAINS
                = false) as Hf by (apply existsb_false_iff; exact Hex).
        congruence.
    + pose proof (proj1 (existsb_false_iff _ _) Eex) as Hnone.
      cbv beta in Hnone.
      destruct (len (split_char "." domain) >=? 2)%Z eqn:Ep.
      * split; [|reflexivity]. intros _. exists g.
        split; [left|]. split; [exact Hnone | apply Hparts; reflexivity].
      * rewrite IH. split.
        -- intros (g' & Hg' & H). exists g'.
           split; [right; exact Hg' | exact H].
        -- intros (g' & Hg' & Hex & Hdot).
           apply elem_of_cons in Hg' as [->|Hg']; [|eauto].
           exfalso. fold domain in Hdot. apply Hparts in Hdot. congruence.
Qed.

(** ** The run of the cleaner *)

Lemma file_events_of_map (events : list clean_event)
    (before after : list cleaner_event) :
  file_events before = [] -> file_events after = [] ->
  file_events (before ++ map FileEvent events ++ after) = events.
Proof.
  intros Hb Ha. unfold file_events in *. rewrite !omap_app, Hb, Ha.
  rewrite app_nil_r. cbn [app].
  induction events as [|e events IH]; [reflexivity|].
  cbn. f_equal. exact IH.
Qed.

Section CleanerMainProperties.

Variable re_search_IP re_search_IPV6 re_search_hash : text -> bool.
Variable re_finditer_DOMAIN : text -> list text.
Variable re_match_LOG : text -> bool.
Variable lower strip : text -> text.

Local Abbreviation removes' :=
  (removes re_search_IP re_search_IPV6 re_search_hash re_finditer_DOMAIN
     re_match_LOG lower strip).
Local Abbreviation clean_file' :=
  (clean_file re_search_IP re_search_IPV6 re_search_hash re_finditer_DOMAIN
     re_match_LOG lower strip).
Local Abbreviation clean_files_loop' :=
  (clean_files_loop re_search_IP re_search_IPV6 re_search_hash
     re_finditer_DOMAIN re_match_LOG lower strip).
Local Abbreviation clean_logs_main' :=
  (clean_logs_main re_search_IP re_search_IPV6 re_search_hash
     re_finditer_DOMAIN re_match_LOG lower strip).
Local Abbreviation kept lines :=
  (filter (fun line => removes' line = false) lines).

(** The loop over the files: when it ends normally its counter counts
    the files reported as cleaned; these are among the files rewritten,
    which are among the files listed, each written with the lines kept of
    the lines read. *)
Lemma clean_files_loop_spec (tree : source_tree) (kotlin_files : list path)
    (cleaned_count : Z) :
  (forall n,
     (clean_files_loop' tree kotlin_files cleaned_count).2 = Ok n ->
     n = (cleaned_count
          + len (reported
                   (clean_files_loop' tree kotlin_files cleaned_count).1))%Z)
  /\
  reported (clean_files_loop' tree kotlin_files cleaned_count).1
    `sublist_of`
    rewritten (clean_files_loop' tree kotlin_files cleaned_count).1 /\
  rewritten (clean_files_loop' tree kotlin_files cleaned_count).1
    `sublist_of` kotlin_files /\
  (forall file_path out,
     WriteLines file_path out
       ∈ (clean_files_loop' tree kotlin_files cleaned_count).1 ->
     exists lines,
       open_readlines tree file_path = Ok lines /\
       out = kept lines /\ (len out < len lines)%Z) /\
  ((forall p n, echo tree (FileEvent (Removed p n)) = Ok tt) ->
   reported (clean_files_loop' tree kotlin_files cleaned_count).1
   = rewritten (clean_files_loop' tree kotlin_files cleaned_count).1).
Proof.
  revert cleaned_count.
  induction kotlin_files as [|f files IH]; intros n; cbn [clean_files_loop].
  - cbn [fst snd rewritten reported omap list_omap].
    split; [intros n' [= <-]; unfold len; cbn [length]; lia|].
    split; [constructor|]. split; [constructor|].
    split; [|reflexivity].
    intros p out H. rewrite elem_of_nil in H. contradiction.
  - destruct (clean_file_summary re_search_IP re_search_IPV6 re_search_hash
                re_finditer_DOMAIN re_match_LOG lower strip
                (fun line => echo tree (FileEvent line)) f
                (open_readlines tree f) (open_writelines tree f))
      as [Hsum Hout].
    destruct (clean_file' (fun line => echo tree (FileEvent line)) f
                (open_readlines tree f) (open_writelines tree f))
      as [events outcome].
    cbn [fst snd] in *.
    assert (Hwrites : forall p out,
              WriteLines p out ∈ events ->
              exists lines,
                open_readlines tree p = Ok lines /\
                out = kept lines /\ (len out < len lines)%Z).
    { intros p out H. destruct (Hout p out H) as (-> & Hlines).
      exact Hlines. }
    destruct Hsum as [(-> & Hrep & Hrew)|(Hne & Hrep & Hrew)].
    + destruct (IH (n + 1)%Z) as (Hc & Hs1 & Hs2 & Hw & Heq).
      destruct (clean_files_loop' tree files (n + 1)) as [events' outcome'].
      cbn [fst snd] in *.
      unfold reported, rewritten in *. rewrite !omap_app, Hrep, Hrew.
      cbn [app]. split.
      { intros n' H. rewrite (Hc n' H). unfold len. cbn [length]. lia. }
      split; [apply sublist_skip; exact Hs1|].
      split; [apply sublist_skip; exact Hs2|]. split.
      { intros p out H. apply elem_of_app in H as [H|H]; eauto. }
      intros Hacc. f_equal. exact (Heq Hacc).
    + destruct outcome as [[|]|e]; [destruct (Hne eq_refl)| |].
      * destruct (IH n) as (Hc & Hs1 & Hs2 & Hw & Heq).
        destruct (clean_files_loop' tree files n) as [events' outcome'].
        cbn [fst snd] in *.
        unfold reported, rewritten in *. rewrite !omap_app, Hrep.
        cbn [app]. split; [exact Hc|].
        split; [apply sublist_inserts_l; exact Hs1|]. split.
        { destruct Hrew as [->|(-> & _)]; cbn [app];
            [apply sublist_cons | apply sublist_skip]; exact Hs2. }
        split.
        { intros p out H. apply elem_of_app in H as [H|H]; eauto. }
        intros Hacc. destruct Hrew as [->|(_ & k & Hp)];
          [exact (Heq Hacc) | destruct (Hp (Hacc f k))].
      * cbn [fst snd]. unfold reported, rewritten in *. rewrite Hrep.
        split; [discriminate|]. split; [apply sublist_nil_l|]. split.
        { destruct Hrew as [->|(-> & _)];
            [apply sublist_nil_l | apply sublist_skip, sublist_nil_l]. }
        split; [exact Hwrites|].
        intros Hacc. destruct Hrew as [->|(_ & k & Hp)];
          [reflexivity | destruct (Hp (Hacc f k))].
Qed.

(** The loop ends normally when the stream takes the lines of
    [clean_file] and reading and rewriting raise exceptions proper
    only. *)
Lemma clean_files_loop_returns (tree : source_tree)
    (kotlin_files : list path) (cleaned_count : Z) :
  (forall line, echo tree (FileEvent line) = Ok tt) ->
  (forall p e, open_readlines tree p = Raise e -> is_Exception e = true) ->
  (forall p l e,
     open_writelines tree p l = Raise e -> is_Exception e = true) ->
  exists n, (clean_files_loop' tree kotlin_files cleaned_count).2 = Ok n.
Proof.
  intros Hecho Hread Hwrite. revert cleaned_count.
  induction kotlin_files as [|f files IH]; intros n; cbn [clean_files_loop].
  - eexists. reflexivity.
  - assert (Hcf : exists events cleaned,
              clean_file' (fun line => echo tree (FileEvent line)) f
                (open_readlines tree f) (open_writelines tree f)
              = (events, Ok cleaned)).
    { unfold clean_file, say.
      destruct (open_readlines tree f) as [lines|e] eqn:Er.
      - destruct (clean_loop _ _ _ _ _ _ _ lines [] 0) as [cleaned removed].
        destruct (removed >? 0)%Z; [|eauto].
        destruct (open_writelines tree f cleaned) as [[]|e] eqn:Ew.
        + rewrite Hecho. eauto.
        + rewrite (Hwrite _ _ _ Ew), Hecho. eauto.
      - rewrite (Hread _ _ Er), Hecho. eauto. }
    destruct Hcf as (events & cleaned & ->).
    destruct (IH (if cleaned then n + 1 else n)%Z) as [n' Hn'].
    destruct (clean_files_loop' tree files (if cleaned then n + 1 else n)%Z)
      as [events' outcome'].
    cbn [fst snd] in *. eauto.
Qed.

Lemma file_events_map_app (events : list clean_event)
    (after : list cleaner_event) :
  file_events (map FileEvent events ++ after) = events ++ file_events after.
Proof.
  induction events as [|e events IH]; [reflexivity|].
  cbn. f_equal. exact IH.
Qed.

Lemma printed_counts_map_app (events : list clean_event)
    (after : list cleaner_event) :
  printed_counts (map FileEvent events ++ after) = printed_counts after.
Proof.
  induction events as [|e events IH]; [reflexivity | exact IH].
Qed.

(** What a run of [main] did to the files is what its loop did, or
    nothing; when it returns, it printed the counter of the loop. *)
Lemma clean_logs_main_shape (tree : source_tree) (project_root : path)
    (argv : list path) :
  (file_events (clean_logs_main' tree project_root argv).1 = [] /\
   (clean_logs_main' tree project_root argv).2 <> Ok tt) \/
  (exists kotlin_files,
     rglob_kt tree (cleaner_target project_root argv) = Ok kotlin_files /\
     file_events (clean_logs_main' tree project_root argv).1
     = (clean_files_loop' tree kotlin_files 0).1 /\
     ((clean_logs_main' tree project_root argv).2 = Ok tt ->
      exists n,
        (clean_files_loop' tree kotlin_files 0).2 = Ok n /\
        printed_counts (clean_logs_main' tree project_root argv).1 = [n])).
Proof.
  unfold clean_logs_main, echo_then. cbv zeta.
  destruct (dir_exists tree (cleaner_target project_root argv))
    as [[|]|e]; cbn [negb].
  2:{ left. destruct (echo tree (MsgNoDirectory _)); cbn [fst snd];
        (split; [reflexivity | discriminate]). }
  2:{ left. split; [reflexivity | discriminate]. }
  destruct (echo tree (MsgCleaning _)) as [[]|e1];
    [|left; split; [reflexivity | discriminate]].
  destruct (echo tree MsgRule) as [[]|e2];
    [|left; split; [reflexivity | discriminate]].
  destruct (rglob_kt tree (cleaner_target project_root argv))
    as [[|f files]|e].
  { left. destruct (echo tree MsgNoKotlinFiles); cbn [fst snd];
      (split; [reflexivity | discriminate]). }
  2:{ left. split; [reflexivity | discriminate]. }
  right. exists (f :: files). split; [reflexivity|].
  destruct (clean_files_loop' tree (f :: files) 0) as [events [n|e]].
  2:{ cbn [fst snd file_events omap list_omap].
      split; [|discriminate].
      rewrite <- (app_nil_r (map FileEvent events)), file_events_map_app.
      apply app_nil_r. }
  destruct (echo tree MsgRuleEnd) as [[]|e3].
  2:{ cbn [fst snd file_events omap list_omap].
      split; [|discriminate]. rewrite file_events_map_app. apply app_nil_r. }
  destruct (echo tree (MsgCleaned n)) as [[]|e4].
  2:{ cbn [fst snd file_events omap list_omap].
      split; [|discriminate]. rewrite file_events_map_app. apply app_nil_r. }
  cbn [fst snd file_events printed_counts omap list_omap].
  split.
  - change (omap _ (map FileEvent events ++ ?after))
      with (file_events (map FileEvent events ++ after)).
    rewrite file_events_map_app. apply app_nil_r.
  - intros _. exists n. split; [reflexivity|].
    change (omap _ (map FileEvent events ++ ?after))
      with (printed_counts (map FileEvent events ++ after)).
    rewrite printed_counts_map_app. reflexivity.
Qed.

(** X13. The run of the cleaner. What the test for the directory or
    the listing of its Kotlin files raises leaves [main], no file being
    touched. When the directory does not exist, or holds no Kotlin file,
    the run touches no file and does not return: it exits with status 1,
    respectively 0, when the stream takes its lines. When the directory
    holds Kotlin files, the stream takes every line and reading and
    rewriting raise exceptions proper only, the run returns. Whenever it
    returns, the count it prints is the number of files it reported as
    cleaned; these are, in order, among the files it rewrote, which are,
    in order, among the Kotlin files listed; the count is the number of
    files rewritten when the stream takes the lines of the successes,
    and can be smaller when it does not. *)
Theorem cleaner_counts_rewritten_files (tree : source_tree)
    (project_root : path) (argv : list path) :
  (forall e,
     dir_exists tree (cleaner_target project_root argv) = Raise e ->
     clean_logs_main' tree project_root argv = ([], Raise e)) /\
  (forall e,
     rglob_kt tree (cleaner_target project_root argv) = Raise e ->
     file_events (clean_logs_main' tree project_root argv).1 = [] /\
     (clean_logs_main' tree project_root argv).2 <> Ok tt) /\
  (dir_exists tree (cleaner_target project_root argv) = Ok false ->
   file_events (clean_logs_main' tree project_root argv).1 = [] /\
   (clean_logs_main' tree project_root argv).2 <> Ok tt /\
   (echo tree (MsgNoDirectory (cleaner_target project_root argv)) = Ok tt ->
    clean_logs_main' tree project_root argv
    = ([MsgNoDirectory (cleaner_target project_root argv)],
       Raise (SystemExit 1)))) /\
  (dir_exists tree (cleaner_target project_root argv) = Ok true ->
   rglob_kt tree (cleaner_target project_root argv) = Ok [] ->
   file_events (clean_logs_main' tree project_root argv).1 = [] /\
   (clean_logs_main' tree project_root argv).2 <> Ok tt /\
   ((forall line, echo tree line = Ok tt) ->
    clean_logs_main' tree project_root argv
    = ([MsgCleaning (cleaner_target project_root argv); MsgRule;
        MsgNoKotlinFiles], Raise (SystemExit 0)))) /\
  (forall kotlin_files,
     dir_exists tree (cleaner_target project_root argv) = Ok true ->
     rglob_kt tree (cleaner_target project_root argv) = Ok kotlin_files ->
     kotlin_files <> [] ->
     (forall line, echo tree line = Ok tt) ->
     (forall p e, open_readlines tree p = Raise e -> is_Exception e = true) ->
     (forall p l e,
        open_writelines tree p l = Raise e -> is_Exception e = true) ->
     (clean_logs_main' tree project_root argv).2 = Ok tt) /\
  ((clean_logs_main' tree project_root argv).2 = Ok tt ->
   printed_counts (clean_logs_main' tree project_root argv).1
   = [len (reported
             (file_events (clean_logs_main' tree project_root argv).1))]) /\
  reported (file_events (clean_logs_main' tree project_root argv).1)
    `sublist_of`
    rewritten (file_events (clean_logs_main' tree project_root argv).1) /\
  (forall kotlin_files,
     rglob_kt tree (cleaner_target project_root argv) = Ok kotlin_files ->
     rewritten (file_events (clean_logs_main' tree project_root argv).1)
       `sublist_of` kotlin_files) /\
  ((forall p n, echo tree (FileEvent (Removed p n)) = Ok tt) ->
   reported (file_events (clean_logs_main' tree project_root argv).1)
   = rewritten (file_events (clean_logs_main' tree project_root argv).1)).
Proof.
  split; [|split; [|split; [|split; [|split]]]].
  - intros e He. unfold clean_logs_main. cbv zeta. rewrite He. reflexivity.
  - intros e He.
    destruct (clean_logs_main_shape tree project_root argv)
      as [H|(files & Hfiles & _)]; [exact H | congruence].
  - intros Hd. unfold clean_logs_main, echo_then. cbv zeta. rewrite Hd.
    cbn [negb].
    destruct (echo tree (MsgNoDirectory _)) as [[]|e]; cbn [fst snd].
    + split; [reflexivity|]. split; [discriminate | reflexivity].
    + split; [reflexivity|]. split; discriminate.
  - intros Hd Hfiles. unfold clean_logs_main, echo_then. cbv zeta.
    rewrite Hd, Hfiles. cbn [negb].
    destruct (echo tree (MsgCleaning _)) as [[]|e1] eqn:E1; cbn [fst snd];
      [|split; [reflexivity|];
        split; [discriminate | intros H; rewrite H in E1; discriminate E1]].
    destruct (echo tree MsgRule) as [[]|e2] eqn:E2; cbn [fst snd];
      [|split; [reflexivity|];
        split; [discriminate | intros H; rewrite H in E2; discriminate E2]].
    destruct (echo tree MsgNoKotlinFiles) as [[]|e3] eqn:E3; cbn [fst snd];
      [|split; [reflexivity|];
        split; [discriminate | intros H; rewrite H in E3; discriminate E3]].
    split; [reflexivity|]. split; [discriminate | reflexivity].
  - intros kotlin_files Hd Hfiles Hsome Hecho Hread Hwrite.
    unfold clean_logs_main, echo_then. cbv zeta.
    rewrite Hd, Hfiles, !Hecho. cbn [negb].
    destruct kotlin_files as [|f files]; [destruct (Hsome eq_refl)|].
    destruct (clean_files_loop_returns tree (f :: files) 0
                (fun line => Hecho (FileEvent line)) Hread Hwrite)
      as [n Hn].
    destruct (clean_files_loop' tree (f :: files) 0) as [events outcome].
    cbn [fst snd] in Hn. subst outcome. rewrite !Hecho. reflexivity.
  - destruct (clean_logs_main_shape tree project_root argv)
      as [(-> & Hne)|(files & Hfiles & -> & Hret)].
    + split; [intros H; destruct (Hne H)|].
      split; [constructor|]. split; [intros; apply sublist_nil_l|].
      reflexivity.
    + destruct (clean_files_loop_spec tree files 0)
        as (Hcount & Hs1 & Hs2 & _ & Heq).
      split; [|split; [exact Hs1|split; [|exact Heq]]].
      * intros H. destruct (Hret H) as (n & Hn & ->).
        rewrite (Hcount n Hn). f_equal; lia.
      * intros files' Hfiles'. rewrite Hfiles in Hfiles'.
        injection Hfiles' as <-. exact Hs2.
Qed.

Lemma elem_of_file_events (e : clean_event) (events : list cleaner_event) :
  FileEvent e ∈ events -> e ∈ file_events events.
Proof.
  intros H. unfold file_events. apply list_elem_of_omap.
  exists (FileEvent e). split; [exact H | reflexivity].
Qed.

(** X14. Every file the run of the cleaner writes was read before, and
    is written with a subsequence of the lines read, strictly shorter, in
    which every line without "Log." is still there. *)
Theorem cleaner_writes_filtered_files (tree : source_tree)
    (project_root : path) (argv : list path) (file_path : path)
    (out : list text) :
  FileEvent (WriteLines file_path out)
    ∈ (clean_logs_main' tree project_root argv).1 ->
  exists lines,
    open_readlines tree file_path = Ok lines /\
    out `sublist_of` lines /\
    (len out < len lines)%Z /\
    filter (fun line => contains line (lit "Log.") = false) out
    = filter (fun line => contains line (lit "Log.") = false) lines.
Proof.
  intros H. apply elem_of_file_events in H.
  destruct (clean_logs_main_shape tree project_root argv)
    as [(Hnil & _)|(files & _ & Hloop & _)].
  { rewrite Hnil, elem_of_nil in H. contradiction. }
  rewrite Hloop in H.
  destruct (clean_files_loop_spec tree files 0) as (_ & _ & _ & Hout & _).
  destruct (Hout _ _ H) as (lines & Hread & -> & Hlt).
  exists lines. split; [exact Hread|]. split; [apply sublist_filter|].
  split; [exact Hlt|].
  rewrite list_filter_filter. apply list_filter_iff. intros line.
  split; [tauto|]. intros Hl. split; [exact Hl|].
  destruct (removes' line) eqn:E; [|reflexivity].
  apply (removes_has_log re_search_IP re_search_IPV6 re_search_hash
           re_finditer_DOMAIN re_match_LOG lower strip) in E.
  congruence.
Qed.

End CleanerMainProperties.

Lemma clean_drops_qualified_debug_logs_witness :
  lit "  android.util.Log.d(TAG, msg)"
    ∉ (clean_loop finds_nothing finds_nothing finds_nothing matches_nothing
         finds_nothing unchanged unchanged
         [lit "fun f() {"; lit "  android.util.Log.d(TAG, msg)"; lit "}"]
         [] 0).1.
Proof.
  apply (clean_drops_qualified_debug_logs finds_nothing finds_nothing
           finds_nothing matches_nothing finds_nothing unchanged unchanged).
  reflexivity.
Defined.

Example cleaner_run_sample :
  clean_logs_main finds_nothing finds_nothing finds_nothing matches_nothing
    finds_nothing unchanged unchanged sample_tree sample_root
    [sample_script; ["src"%string]]
  = ([MsgCleaning ["src"%string]; MsgRule;
      FileEvent (WriteLines ["Main.kt"%string] [lit "fun f() {"; lit "}"]);
      FileEvent (Removed ["Main.kt"%string] 1);
      MsgRuleEnd; MsgCleaned 1], Ok tt).
Proof. reflexivity. Qed.

(** On a stream that cannot encode the check mark, the run rewrites one
    file and prints that it cleaned none. *)
Example cleaner_run_sample_ascii :
  clean_logs_main finds_nothing finds_nothing finds_nothing matches_nothing
    finds_nothing unchanged unchanged sample_tree_ascii sample_root
    [sample_script; ["src"%string]]
  = ([MsgCleaning ["src"%string]; MsgRule;
      FileEvent (WriteLines ["Main.kt"%string] [lit "fun f() {"; lit "}"]);
      FileEvent
        (ErrorWriting ["Main.kt"%string]
           (ValueError "'ascii' codec can't encode character '\u2713'"));
      MsgRuleEnd; MsgCleaned 0], Ok tt).
Proof. reflexivity. Qed.

Lemma cleaner_writes_filtered_files_witness :
  exists lines,
    open_readlines sample_tree ["Main.kt"%string] = Ok lines /\
    [lit "fun f() {"; lit "}"] `sublist_of` lines /\
    (len [lit "fun f() {"; lit "}"] < len lines)%Z /\
    filter (fun line => contains line (lit "Log.") = false)
           [lit "fun f() {"; lit "}"]
    = filter (fun line => contains line (lit "Log.") = false) lines.
Proof.
  apply (cleaner_writes_filtered_files finds_nothing finds_nothing
           finds_nothing matches_nothing finds_nothing unchanged unchanged
           sample_tree sample_root [sample_script; ["src"%string]]
           ["Main.kt"%string] [lit "fun f() {"; lit "}"]).
  vm_compute. do 2 apply list_elem_of_further. apply list_elem_of_here.
Defined.
